(** * 7estar: the test-run engine and the artifact retrieval service

    A shallow embedding of [src/tools.ts] (the run engine with its step
    recorder) and of [src/agent.ts] (the artifact index builder, the
    [get_artifact] tool handler and the HTTP log route), followed by the
    properties of the specification that were checked against them.

    Conventions.
    - JavaScript strings are [string]; a thrown value is an [Exn].
    - A call that may throw returns a [Completion].
    - The functions of the JavaScript and Node.js runtime that the program
      calls but does not define ([path.resolve], [JSON.parse], ...) are the
      fields of a [NodeRuntime]; every statement holds for any runtime.
    - The file system is a view [string -> option Inode] of the disk.
    - The browser, the clock and the user script are the [World] of a run. *)

From Stdlib Require Import String Ascii List Bool Arith ZArith QArith Lia.
From Stdlib Require Import Permutation Sorted Mergesort Orders OrderedTypeEx.
From Stdlib Require DecimalString.
Import ListNotations.

Local Open Scope string_scope.
Local Open Scope list_scope.

(* ================================================================== *)
(** * JavaScript values used by the program *)
(* ================================================================== *)

Module JS.

(** A thrown value. [Error m] is [new Error(m)]; any other thrown value is
    kept by its [String(e)] rendering. *)
Inductive Exn : Type :=
| Error (message : string)
| Other (rendering : string).

(** [String(e)] *)
Definition String_of (e : Exn) : string :=
  match e with
  | Error m => ("Error: " ++ m)%string
  | Other r => r
  end.

(** The completion of a call: a returned value or a thrown one. *)
Inductive Completion (A : Type) : Type :=
| Returned (a : A)
| Thrown (e : Exn).
Arguments Returned {A} a.
Arguments Thrown {A} e.

Definition bind {A B} (c : Completion A) (k : A -> Completion B) : Completion B :=
  match c with
  | Returned a => k a
  | Thrown e => Thrown e
  end.

(** A JavaScript number: a finite value, or one of the three others. *)
Inductive Number : Type :=
| Finite (q : Q)
| NaN
| PosInfinity
| NegInfinity.

(** truthiness of a number: [0] and [NaN] are falsy *)
Definition truthy (n : Number) : bool :=
  match n with
  | Finite q => negb (Qeq_bool q 0)
  | NaN => false
  | PosInfinity | NegInfinity => true
  end.

Definition Number_isFinite (n : Number) : bool :=
  match n with
  | Finite _ => true
  | _ => false
  end.

(** unary minus *)
Definition neg (n : Number) : Number :=
  match n with
  | Finite q => Finite (Qopp q)
  | NaN => NaN
  | PosInfinity => NegInfinity
  | NegInfinity => PosInfinity
  end.

(** The start index that [slice(start)] uses on a sequence of length [len]:
    [start] is truncated towards zero ([NaN] is 0), a negative value counts
    from the end, and the result is clamped to [0 .. len]. *)
Definition slice_start (start : Number) (len : nat) : nat :=
  let n := Z.of_nat len in
  match start with
  | NaN => 0%nat
  | PosInfinity => len
  | NegInfinity => 0%nat
  | Finite q =>
      let rel := Z.quot (Qnum q) (Zpos (Qden q)) in
      Z.to_nat (if (rel <? 0)%Z then Z.max (n + rel) 0 else Z.min rel n)
  end.

(** [Array.prototype.slice(start)] *)
Definition Array_slice {A} (start : Number) (l : list A) : list A :=
  skipn (slice_start start (List.length l)) l.

(** [String.prototype.slice(start)] *)
Definition String_slice (start : Number) (s : string) : string :=
  let k := slice_start start (String.length s) in
  substring k (String.length s - k) s.

(** [String.prototype.toLowerCase], on the ASCII letters; other bytes are
    left as they are. *)
Definition toLowerCase_char (c : ascii) : ascii :=
  let n := nat_of_ascii c in
  if (65 <=? n)%nat && (n <=? 90)%nat then ascii_of_nat (n + 32) else c.

Fixpoint toLowerCase (s : string) : string :=
  match s with
  | EmptyString => EmptyString
  | String c s' => String (toLowerCase_char c) (toLowerCase s')
  end.

(** [s.includes(g)]: [g] occurs in [s] as a substring. *)
Fixpoint includes (s g : string) : bool :=
  prefix g s ||
  match s with
  | EmptyString => false
  | String _ s' => includes s' g
  end.

(** [s.endsWith(suffix)] *)
Definition endsWith (s suffix : string) : bool :=
  let n := String.length s in
  let m := String.length suffix in
  (m <=? n)%nat && (substring (n - m) m s =? suffix)%string.

(** [files.includes(x)] on an array of strings *)
Definition Array_includes (l : list string) (x : string) : bool :=
  existsb (String.eqb x) l.

(** the line feed, and [content.split('\n')] *)
Definition LF : ascii := ascii_of_nat 10.
Definition nl : string := String LF EmptyString.

Fixpoint split_lines (s : string) : list string :=
  match s with
  | EmptyString => [EmptyString]
  | String c s' =>
      if Ascii.eqb c LF then EmptyString :: split_lines s'
      else match split_lines s' with
           | h :: t => String c h :: t
           | [] => [String c EmptyString]
           end
  end.

(** [lines.join('\n')] *)
Definition join_lines (l : list string) : string := String.concat nl l.

(** truthiness of an optional string: [undefined] and [""] are falsy *)
Definition nonempty (o : option string) : option string :=
  match o with
  | Some EmptyString => None
  | other => other
  end.

(** JSON values. *)
#[warnings="-register-all"]
Inductive Json : Type :=
| JNull
| JBool (b : bool)
| JNum (n : Z)
| JStr (s : string)
| JArr (items : list Json)
| JObj (fields : list (string * Json)).

(** property lookup on a parsed object *)
Fixpoint get_field (k : string) (fields : list (string * Json)) : option Json :=
  match fields with
  | [] => None
  | (k', v) :: rest => if (k' =? k)%string then Some v else get_field k rest
  end.

(** a string, or [null] when absent *)
Definition nullable (o : option string) : Json :=
  match o with
  | Some s => JStr s
  | None => JNull
  end.

(** The default order of [Array.prototype.sort()] on strings: comparison
    code unit by code unit. *)
Module StringOrder <: TotalLeBool.
Definition t := string.
Definition leb := String.leb.
Definition leb_total : forall a1 a2, leb a1 a2 = true \/ leb a2 a1 = true :=
  String.leb_total.
End StringOrder.

Module StringSort := Sort StringOrder.

Definition Array_sort (l : list string) : list string := StringSort.sort l.

End JS.
Import JS.

Declare Scope completion_scope.
Delimit Scope completion_scope with completion.
Notation "x <- c ;; k" := (JS.bind c (fun x => k))
  (at level 61, c at next level, right associativity) : completion_scope.

(* ================================================================== *)
(** * The runtime and the file system *)
(* ================================================================== *)

(** The runtime functions the program calls. [JSON_parse] gives [None]
    where [JSON.parse] throws a [SyntaxError]. *)
Record NodeRuntime : Type := {
  path_resolve : string -> string -> string;
  path_resolve1 : string -> string;
  path_join : string -> string -> string;
  path_basename : string -> string;
  path_isAbsolute : string -> bool;
  JSON_parse : string -> option Json;
  JSON_stringify : Json -> string;
  JSON_stringify_indent : Json -> nat -> string;
  Number_of : string -> Number;
  Date_toISOString : Z -> string
}.

(** What a path names: a file with its text, or a directory with the names
    of its entries in the order [readdirSync] lists them. *)
Inductive Inode : Type :=
| File (content : string)
| Dir (entries : list string).

Definition FileSystem : Type := string -> option Inode.

Module fs.

Definition existsSync (disk : FileSystem) (p : string) : bool :=
  match disk p with
  | Some _ => true
  | None => false
  end.

Definition readdirSync (disk : FileSystem) (p : string) : Completion (list string) :=
  match disk p with
  | Some (Dir entries) => Returned entries
  | Some (File _) => Thrown (Other "ENOTDIR")
  | None => Thrown (Other "ENOENT")
  end.

Definition readFileSync (disk : FileSystem) (p : string) : Completion string :=
  match disk p with
  | Some (File content) => Returned content
  | Some (Dir _) => Thrown (Other "EISDIR")
  | None => Thrown (Other "ENOENT")
  end.

End fs.

(* ================================================================== *)
(** * src/agent.ts *)
(* ================================================================== *)

Module Agent.

Local Open Scope completion_scope.

Record Logs : Type := {
  console : option string;
  network : option string;
  actions : option string
}.

Record ArtifactIndex : Type := {
  runId : string;
  artifactsDir : string;
  screenshots : list string;
  logs : Logs;
  trace : option string
}.

(** [JSON.stringify] is applied to this rendering of an index. *)
Definition json_of_index (i : ArtifactIndex) : Json :=
  JObj [ ("runId", JStr (runId i));
         ("artifactsDir", JStr (artifactsDir i));
         ("screenshots", JArr (map JStr (screenshots i)));
         ("logs", JObj [ ("console", nullable (console (logs i)));
                         ("network", nullable (network (logs i)));
                         ("actions", nullable (actions (logs i))) ]);
         ("trace", nullable (trace i)) ].

(** [{ error: msg }] *)
Definition error_object (msg : string) : Json := JObj [("error", JStr msg)].

(** the responses of the HTTP routes *)
Inductive HttpResponse : Type :=
| res_json (status : nat) (body : Json)
| res_text (body : string).

Section WithRuntime.

Variable node : NodeRuntime.
Variable disk : FileSystem.

Definition ensureRunDir (runId : string) : Completion string :=
  let dir := path_resolve node "runs" runId in
  if negb (fs.existsSync disk dir)
  then Thrown (Error ("Run not found: " ++ runId))
  else Returned dir.

(** [files.includes(f) ? f : null] *)
Definition present (files : list string) (f : string) : option string :=
  if Array_includes files f then Some f else None.

Definition buildArtifactIndex (artifactsDir : string) : Completion ArtifactIndex :=
  files <- fs.readdirSync disk artifactsDir ;;
  let screenshots := Array_sort (filter (fun f => endsWith f ".png") files) in
  let consoleLog := present files "console.log" in
  let networkLog := present files "network.log" in
  let actions := present files "actions.json" in
  let trace := present files "trace.zip" in
  let runId := path_basename node artifactsDir in
  Returned {| runId := runId;
              artifactsDir := artifactsDir;
              screenshots := screenshots;
              logs := {| console := consoleLog; network := networkLog; actions := actions |};
              trace := trace |}.

(** [Array.isArray(parsed) ? parsed : parsed?.actions ?? []] *)
Definition items_of (parsed : Json) : Json :=
  match parsed with
  | JArr _ => parsed
  | JObj fields =>
      match get_field "actions" fields with
      | None | Some JNull => JArr []
      | Some v => v
      end
  | _ => JArr []
  end.

(** [JSON.stringify(x).toLowerCase().includes(g)] *)
Definition item_matches (g : string) (x : Json) : bool :=
  includes (toLowerCase (JSON_stringify node x)) g.

(** [items.filter(...)]: only an array has the method *)
Definition filter_items (g : string) (items : Json) : Completion Json :=
  match items with
  | JArr l => Returned (JArr (filter (item_matches g) l))
  | _ => Thrown (Other "TypeError: items.filter is not a function")
  end.

(** [items.slice(-limit)]: arrays and strings have the method *)
Definition slice_items (start : Number) (items : Json) : Completion Json :=
  match items with
  | JArr l => Returned (JArr (Array_slice start l))
  | JStr s => Returned (JStr (String_slice start s))
  | _ => Thrown (Other "TypeError: items.slice is not a function")
  end.

Definition parse (content : string) : Completion Json :=
  match JSON_parse node content with
  | Some v => Returned v
  | None => Thrown (Other "SyntaxError")
  end.

Definition handleGetArtifact (runId kind : string) (name grep : option string)
    (limit : option Number) : Completion string :=
  dir <- ensureRunDir runId ;;
  if (kind =? "index")%string then
    index <- buildArtifactIndex dir ;;
    Returned (JSON_stringify node (json_of_index index))
  else if (kind =? "screenshot")%string then
    match nonempty name with
    | None => Returned (JSON_stringify node (error_object "name is required for screenshot"))
    | Some name =>
        let file := path_join node dir (name ++ ".png") in
        if negb (fs.existsSync disk file)
        then Returned (JSON_stringify node (error_object "screenshot not found"))
        else Returned (JSON_stringify node (JObj [("path", JStr file)]))
    end
  else if (kind =? "console")%string || (kind =? "network")%string
          || (kind =? "actions")%string then
    let fileName :=
      if (kind =? "console")%string then "console.log"
      else if (kind =? "network")%string then "network.log"
      else "actions.json" in
    let file := path_join node dir fileName in
    if negb (fs.existsSync disk file)
    then Returned (JSON_stringify node (error_object "log not found"))
    else
      let grep := option_map toLowerCase grep in
      let limit :=
        match limit with
        | Some n => if truthy n && Number_isFinite n then Some n else None
        | None => None
        end in
      if (kind =? "actions")%string then
        content <- fs.readFileSync disk file ;;
        parsed <- parse content ;;
        let items := items_of parsed in
        items <- match nonempty grep with
                 | Some g => filter_items g items
                 | None => Returned items
                 end ;;
        items <- match limit with
                 | Some n => if truthy n then slice_items (neg n) items else Returned items
                 | None => Returned items
                 end ;;
        Returned (JSON_stringify node items)
      else
        content <- fs.readFileSync disk file ;;
        let lines := split_lines content in
        let lines := match nonempty grep with
                     | Some g => filter (fun l => includes (toLowerCase l) g) lines
                     | None => lines
                     end in
        let lines := match limit with
                     | Some n => if truthy n then Array_slice (neg n) lines else lines
                     | None => lines
                     end in
        Returned (join_lines lines)
  else if (kind =? "trace")%string then
    let file := path_join node dir "trace.zip" in
    if negb (fs.existsSync disk file)
    then Returned (JSON_stringify node (error_object "trace not found"))
    else Returned (JSON_stringify node (JObj [("path", JStr file)]))
  else Returned (JSON_stringify node (error_object "invalid kind")).

(** [app.get('/runs/:runId/index', ...)] *)
Definition route_index (runId : string) : HttpResponse :=
  match (dir <- ensureRunDir runId ;; buildArtifactIndex dir) with
  | Returned index => res_json 200 (json_of_index index)
  | Thrown e => res_json 404 (error_object (String_of e))
  end.

(** [app.get('/runs/:runId/log/:kind', ...)]; [grep] and [limit] are the
    query parameters, present when they are strings. The body of the [try]
    is [route_log_body]; a response already sent is [Returned]. *)
Definition route_log_body (runId kind : string) (grep limit : option string)
    : Completion HttpResponse :=
  dir <- ensureRunDir runId ;;
  match
    (if (kind =? "console")%string then Some "console.log"
     else if (kind =? "network")%string then Some "network.log"
     else if (kind =? "actions")%string then Some "actions.json"
     else None)
  with
  | None => Returned (res_json 400 (error_object "invalid kind"))
  | Some fileName =>
      let file := path_join node dir fileName in
      if negb (fs.existsSync disk file)
      then Returned (res_json 404 (error_object "log not found"))
      else
        content <- fs.readFileSync disk file ;;
        let limit := option_map (Number_of node) (nonempty limit) in
        let limited :=
          match limit with
          | Some n => truthy n && Number_isFinite n
          | None => false
          end in
        if (kind =? "actions")%string then
          parsed <- parse content ;;
          let items := items_of parsed in
          items <- match nonempty grep with
                   | Some grep => filter_items (toLowerCase grep) items
                   | None => Returned items
                   end ;;
          items <- match limit with
                   | Some n => if limited then slice_items (neg n) items else Returned items
                   | None => Returned items
                   end ;;
          Returned (res_json 200 items)
        else
          let lines := split_lines content in
          let lines := match nonempty grep with
                       | Some grep =>
                           let g := toLowerCase grep in
                           filter (fun l => includes (toLowerCase l) g) lines
                       | None => lines
                       end in
          let lines := match limit with
                       | Some n => if limited then Array_slice (neg n) lines else lines
                       | None => lines
                       end in
          Returned (res_text (join_lines lines))
  end.

Definition route_log (runId kind : string) (grep limit : option string) : HttpResponse :=
  match route_log_body runId kind grep limit with
  | Returned r => r
  | Thrown e => res_json 500 (error_object (String_of e))
  end.

End WithRuntime.

End Agent.

(* ================================================================== *)
(** * src/tools.ts *)
(* ================================================================== *)

Module Tools.

Inductive Status : Type := PASS | FAIL.

Module RunResult.
Record t : Type := {
  status : Status;
  artifactsDir : string;
  runId : string;
  criticalErrors : list string
}.
End RunResult.

Inductive Action : Type :=
| screenshot (name : string) (time : Z)
| step_start (name : string) (time : Z)
| step_end (name : string) (time : Z)
| step_error (name : string) (error : string) (time : Z).

(** The rendering that [JSON.stringify(actions, null, 2)] is applied to. *)
Definition json_of_action (a : Action) : Json :=
  match a with
  | screenshot n t => JObj [("type", JStr "screenshot"); ("name", JStr n); ("time", JNum t)]
  | step_start n t => JObj [("type", JStr "step:start"); ("name", JStr n); ("time", JNum t)]
  | step_end n t => JObj [("type", JStr "step:end"); ("name", JStr n); ("time", JNum t)]
  | step_error n e t =>
      JObj [("type", JStr "step:error"); ("name", JStr n); ("error", JStr e); ("time", JNum t)]
  end.

(** ** The world of a run *)

(** How an awaited call of the browser or of the file system settles. *)
Inductive Settled : Type :=
| Fulfilled
| Rejected (reason : Exn).

(** What [req.response()] gives in the [requestfinished] listener. *)
Inductive ResponseOutcome : Type :=
| response_rejected
| response_null
| response_status (code : Z).

(** The events a page fires. *)
Inductive PageEvent : Type :=
| console (type text : string)
| requestfinished (method url : string) (response : ResponseOutcome)
| pageerror (message : string).

Definition event_name (ev : PageEvent) : string :=
  match ev with
  | console _ _ => "console"
  | requestfinished _ _ _ => "requestfinished"
  | pageerror _ => "pageerror"
  end.

(** The user script, as the sequence of what it does with the page and with
    the helpers it is given. Every helper call is awaited before the script
    does anything else: these are the scripts that call the helpers one at
    a time. A script that has two helper calls under way at once (through
    [Promise.all], or through a call that it does not await) is not among
    them. *)
Inductive Script : Type :=
| Return                                                  (* completes *)
| Throw (e : Exn)                                         (* throws [e] *)
| Page (ev : PageEvent) (k : Script)                      (* the page fires [ev] *)
| Screenshot (name : string) (k : Script)                 (* [await helpers.screenshot(name)] *)
| Step (name : string) (body : Script) (k : Script)       (* [await helpers.step(name, body)] *)
| TryCatch (body : Script) (handler : Exn -> Script) (k : Script).

(** The value that a module has under a name, when it is neither
    [undefined] nor [null]: a function, or a value of another type (a
    number, a string, an object). *)
Inductive Export : Type :=
| is_function (body : Script)
| not_function.

(** The three names that [runTest] reads from the module. A name is [None]
    when its value is [undefined] or [null], the two values that [??]
    passes over: the module has no such export, or it exports [null] or
    [undefined] under the name ([export default null] is [default := None]). *)
Record ScriptModule : Type := {
  default : option Export;
  run : option Export;
  runner : option Export
}.

(** The fields of [new Date()] that [timestampId] reads. *)
Record LocalTime : Type := {
  getFullYear : nat;
  getMonth : nat;
  getDate : nat;
  getHours : nat;
  getMinutes : nat;
  getSeconds : nat
}.

Inductive Resource : Type := the_page | the_context | the_browser.

Record World : Type := {
  existsSync : string -> bool;
  mkdirSync : string -> Settled;
  new_Date : LocalTime;
  clock : nat -> Z;                            (* the n-th reading of the clock *)
  chromium_launch : Settled;
  browser_newContext : Settled;
  context_newPage : Settled;
  tracing_start : Settled;
  import : string -> Completion ScriptModule;
  page_goto : Settled;
  page_screenshot : nat -> string -> Settled;  (* the n-th capture, to a path *)
  tracing_stop : Settled;
  close : Resource -> Settled;
  writeFileSync : string -> string -> Settled
}.

(** ** The state of a run *)

Inductive Listener : Type := on_console | on_requestfinished.

(** What the run did to the disk and to the browser at its end, in order.
    [png] is a screenshot file written; the others record a call made. *)
Inductive Effect : Type :=
| appendFile (path data : string)
| png (path : string)
| trace_stopped (path : string)
| closed (r : Resource)
| writeFile (path data : string).

Record Run : Type := {
  actions : list Action;
  criticalErrors : list string;
  status : Status;
  browser : bool;                      (* the variable holds a handle *)
  context : bool;
  page : bool;
  listeners : list (string * Listener);
  clock_reads : nat;
  captures : nat;
  fired : list PageEvent;              (* every event the page fired *)
  effects : list Effect
}.

Definition initial : Run :=
  {| actions := []; criticalErrors := []; status := PASS;
     browser := false; context := false; page := false;
     listeners := []; clock_reads := 0; captures := 0; fired := []; effects := [] |}.

(** A computation over the state of the run that returns or throws. *)
Definition M (A : Type) : Type := Run -> Completion A * Run.

Definition ret {A} (a : A) : M A := fun s => (Returned a, s).
Definition throw {A} (e : Exn) : M A := fun s => (Thrown e, s).

Definition bind {A B} (m : M A) (k : A -> M B) : M B :=
  fun s =>
    match m s with
    | (Returned a, s') => k a s'
    | (Thrown e, s') => (Thrown e, s')
    end.

(** [try { m } catch (e) { h e }] *)
Definition try_catch {A} (m : M A) (h : Exn -> M A) : M A :=
  fun s =>
    match m s with
    | (Returned a, s') => (Returned a, s')
    | (Thrown e, s') => h e s'
    end.

(** [try { m } finally { f }]: the completion of [m] stands unless [f] throws *)
Definition try_finally {A} (m : M A) (f : M unit) : M A :=
  fun s =>
    match m s with
    | (r, s') =>
        match f s' with
        | (Returned _, s'') => (r, s'')
        | (Thrown e, s'') => (Thrown e, s'')
        end
    end.

Definition modify (f : Run -> Run) : M unit := fun s => (Returned tt, f s).

Definition settle (r : Settled) : M unit :=
  match r with
  | Fulfilled => ret tt
  | Rejected e => throw e
  end.

Declare Scope run_scope.
Delimit Scope run_scope with run.
Notation "x <- c ;; k" := (bind c (fun x => k))
  (at level 61, c at next level, right associativity) : run_scope.
Notation "c ;; k" := (bind c (fun _ => k))
  (at level 61, right associativity) : run_scope.
Local Open Scope run_scope.

(** ** Assignments to the variables of the run *)

Definition push_action (a : Action) (s : Run) : Run :=
  {| actions := actions s ++ [a]; criticalErrors := criticalErrors s; status := status s;
     browser := browser s; context := context s; page := page s;
     listeners := listeners s; clock_reads := clock_reads s; captures := captures s;
     fired := fired s; effects := effects s |}.

Definition push_criticalError (text : string) (s : Run) : Run :=
  {| actions := actions s; criticalErrors := criticalErrors s ++ [text]; status := status s;
     browser := browser s; context := context s; page := page s;
     listeners := listeners s; clock_reads := clock_reads s; captures := captures s;
     fired := fired s; effects := effects s |}.

Definition set_status (v : Status) (s : Run) : Run :=
  {| actions := actions s; criticalErrors := criticalErrors s; status := v;
     browser := browser s; context := context s; page := page s;
     listeners := listeners s; clock_reads := clock_reads s; captures := captures s;
     fired := fired s; effects := effects s |}.

Definition set_handle (r : Resource) (s : Run) : Run :=
  {| actions := actions s; criticalErrors := criticalErrors s; status := status s;
     browser := match r with the_browser => true | _ => browser s end;
     context := match r with the_context => true | _ => context s end;
     page := match r with the_page => true | _ => page s end;
     listeners := listeners s; clock_reads := clock_reads s; captures := captures s;
     fired := fired s; effects := effects s |}.

Definition add_listener (name : string) (l : Listener) (s : Run) : Run :=
  {| actions := actions s; criticalErrors := criticalErrors s; status := status s;
     browser := browser s; context := context s; page := page s;
     listeners := listeners s ++ [(name, l)]; clock_reads := clock_reads s;
     captures := captures s; fired := fired s; effects := effects s |}.

Definition tick (s : Run) : Run :=
  {| actions := actions s; criticalErrors := criticalErrors s; status := status s;
     browser := browser s; context := context s; page := page s;
     listeners := listeners s; clock_reads := S (clock_reads s); captures := captures s;
     fired := fired s; effects := effects s |}.

Definition count_capture (s : Run) : Run :=
  {| actions := actions s; criticalErrors := criticalErrors s; status := status s;
     browser := browser s; context := context s; page := page s;
     listeners := listeners s; clock_reads := clock_reads s; captures := S (captures s);
     fired := fired s; effects := effects s |}.

Definition record_fired (ev : PageEvent) (s : Run) : Run :=
  {| actions := actions s; criticalErrors := criticalErrors s; status := status s;
     browser := browser s; context := context s; page := page s;
     listeners := listeners s; clock_reads := clock_reads s; captures := captures s;
     fired := fired s ++ [ev]; effects := effects s |}.

Definition add_effect (e : Effect) (s : Run) : Run :=
  {| actions := actions s; criticalErrors := criticalErrors s; status := status s;
     browser := browser s; context := context s; page := page s;
     listeners := listeners s; clock_reads := clock_reads s; captures := captures s;
     fired := fired s; effects := effects s ++ [e] |}.

(** ** timestampId and toFileHref *)

(** [String(n)] for a natural number *)
Definition String_of_nat (n : nat) : string :=
  DecimalString.NilEmpty.string_of_uint (Nat.to_uint n).

(** [String(n).padStart(2, '0')] *)
Definition pad (n : nat) : string :=
  let digits := String_of_nat n in
  if (String.length digits <? 2)%nat then ("0" ++ digits)%string else digits.

Definition timestampId (d : LocalTime) : string :=
  (String_of_nat (getFullYear d) ++ "-" ++ pad (getMonth d + 1) ++ "-" ++ pad (getDate d)
   ++ "-" ++ pad (getHours d) ++ "-" ++ pad (getMinutes d) ++ "-" ++ pad (getSeconds d))%string.

(** [abs.replace(/\\/g, '/')] *)
Fixpoint replace_backslashes (s : string) : string :=
  match s with
  | EmptyString => EmptyString
  | String c s' =>
      String (if Ascii.eqb c (ascii_of_nat 92) then ascii_of_nat 47 else c)
             (replace_backslashes s')
  end.

Definition toFileHref (node : NodeRuntime) (p : string) : string :=
  let abs := if path_isAbsolute node p then p else path_resolve1 node p in
  let withSlashes := replace_backslashes abs in
  let prefix := if String.prefix "/" withSlashes then "" else "/" in
  ("file://" ++ prefix ++ withSlashes)%string.

Section Engine.

Variable node : NodeRuntime.
Variable W : World.
Variable artifactsDir : string.

Definition consoleLogPath : string := path_join node artifactsDir "console.log".
Definition networkLogPath : string := path_join node artifactsDir "network.log".
Definition actionsPath : string := path_join node artifactsDir "actions.json".

(** [Date.now()] and [new Date()] read the clock. *)
Definition Date_now : M Z :=
  fun s => (Returned (clock W (clock_reads s)), tick s).

(** ** The listeners *)

(** The [console] listener. The append to the log is taken to succeed. *)
Definition console_listener (type text : string) : M unit :=
  t <- Date_now ;;
  let line := ("[" ++ Date_toISOString node t ++ "] [" ++ type ++ "] " ++ text ++ nl)%string in
  modify (add_effect (appendFile consoleLogPath line)) ;;
  if (type =? "error")%string then modify (push_criticalError text) else ret tt.

(** The [requestfinished] listener; a failure inside it is ignored. *)
Definition requestfinished_listener (method url : string) (response : ResponseOutcome)
    : M unit :=
  match response with
  | response_rejected => ret tt
  | _ =>
      t <- Date_now ;;
      let rec :=
        JObj ([("time", JStr (Date_toISOString node t)); ("method", JStr method);
               ("url", JStr url)]
              ++ match response with
                 | response_status code => [("status", JNum code)]
                 | _ => []
                 end) in
      modify (add_effect (appendFile networkLogPath (JSON_stringify node rec ++ nl)%string))
  end.

Definition call_listener (l : Listener) (ev : PageEvent) : M unit :=
  match l, ev with
  | on_console, console type text => console_listener type text
  | on_requestfinished, requestfinished method url response =>
      requestfinished_listener method url response
  | _, _ => ret tt
  end.

Fixpoint dispatch (ls : list (string * Listener)) (ev : PageEvent) : M unit :=
  match ls with
  | [] => ret tt
  | (name, l) :: rest =>
      (if (name =? event_name ev)%string then call_listener l ev else ret tt) ;;
      dispatch rest ev
  end.

(** The page fires [ev]: the listeners registered for its name are called. *)
Definition emit (ev : PageEvent) : M unit :=
  fun s => dispatch (listeners s) ev (record_fired ev s).

(** [page.on(name, l)] *)
Definition page_on (name : string) (l : Listener) : M unit :=
  modify (add_listener name l).

(** ** The helpers *)

(** [await page.screenshot({ path: file, fullPage: true })] *)
Definition capture (file : string) : M unit :=
  fun s =>
    match page_screenshot W (captures s) file with
    | Fulfilled => (Returned tt, add_effect (png file) (count_capture s))
    | Rejected e => (Thrown e, count_capture s)
    end.

Definition helpers_screenshot (name : string) : M unit :=
  let file := path_join node artifactsDir (name ++ ".png") in
  t <- Date_now ;;
  modify (push_action (screenshot name t)) ;;
  capture file.

Definition helpers_step (name : string) (fn : M unit) : M unit :=
  t <- Date_now ;;
  modify (push_action (step_start name t)) ;;
  helpers_screenshot ("before_" ++ name) ;;
  try_finally
    (try_catch
       (fn ;;
        t <- Date_now ;;
        modify (push_action (step_end name t)))
       (fun e =>
          t <- Date_now ;;
          modify (push_action (step_error name (String_of e) t)) ;;
          helpers_screenshot ("on_error_" ++ name) ;;
          modify (set_status FAIL) ;;
          throw e))
    (helpers_screenshot ("after_" ++ name)).

(** The user script run with the helpers. *)
Fixpoint exec (p : Script) : M unit :=
  match p with
  | Return => ret tt
  | Throw e => throw e
  | Page ev k => emit ev ;; exec k
  | Screenshot name k => helpers_screenshot name ;; exec k
  | Step name body k => helpers_step name (exec body) ;; exec k
  | TryCatch body handler k =>
      try_catch (exec body) (fun e => exec (handler e)) ;; exec k
  end.

(** ** runTest: the body of [try], and the [finally] block *)

(** [mod.default ?? mod.run ?? mod.runner]: the first of the three values
    that is neither [undefined] nor [null], whatever its type. *)
Definition candidate (m : ScriptModule) : option Export :=
  match default m with
  | Some x => Some x
  | None => match run m with
            | Some x => Some x
            | None => runner m
            end
  end.

Definition try_block (scriptPath : string) : M unit :=
  settle (chromium_launch W) ;; modify (set_handle the_browser) ;;
  settle (browser_newContext W) ;; modify (set_handle the_context) ;;
  settle (context_newPage W) ;; modify (set_handle the_page) ;;
  page_on "console" on_console ;;
  page_on "requestfinished" on_requestfinished ;;
  settle (tracing_start W) ;;
  let moduleHref := toFileHref node scriptPath in
  imported <- (fun s => (import W moduleHref, s)) ;;
  match candidate imported with
  | Some (is_function runner) =>
      settle (page_goto W) ;;
      exec runner
  | _ => throw (Error "Test script must export default async function (page, context, helpers)")
  end.

(** [await r.close().catch(() => {})] *)
Definition close_quietly (r : Resource) : M unit :=
  try_catch
    (modify (add_effect (closed r)) ;; settle (close W r))
    (fun _ => ret tt).

Definition finally_block : M unit :=
  (fun s =>
     if context s then
       let tracePath := path_join node artifactsDir "trace.zip" in
       (modify (add_effect (trace_stopped tracePath)) ;; settle (tracing_stop W)) s
     else ret tt s) ;;
  (fun s => if page s then close_quietly the_page s else ret tt s) ;;
  (fun s => if context s then close_quietly the_context s else ret tt s) ;;
  (fun s => if browser s then close_quietly the_browser s else ret tt s) ;;
  (fun s =>
     let data := JSON_stringify_indent node (JArr (map json_of_action (actions s))) 2 in
     try_catch
       (modify (add_effect (writeFile actionsPath data)) ;;
        settle (writeFileSync W actionsPath data))
       (fun _ => ret tt) s).

Definition run_body (scriptPath : string) : M unit :=
  try_finally
    (try_catch (try_block scriptPath) (fun _ => modify (set_status FAIL)))
    finally_block.

End Engine.

Definition runTest (node : NodeRuntime) (W : World) (scriptPath : string)
    : Completion RunResult.t * Run :=
  if negb (existsSync W scriptPath)
  then (Thrown (Error ("Script file not found: " ++ scriptPath)), initial)
  else
    let runId := timestampId (new_Date W) in
    let artifactsDir := path_resolve node "runs" runId in
    match mkdirSync W artifactsDir with
    | Rejected e => (Thrown e, initial)
    | Fulfilled =>
        match run_body node W artifactsDir scriptPath initial with
        | (Returned _, s) =>
            (Returned {| RunResult.status := status s;
                         RunResult.artifactsDir := artifactsDir;
                         RunResult.runId := runId;
                         RunResult.criticalErrors := criticalErrors s |}, s)
        | (Thrown e, s) => (Thrown e, s)
        end
    end.

End Tools.

(* ================================================================== *)
(** * The retrieval contract, in the words of the specification *)
(* ================================================================== *)

Module Contract.

(** [filter] occurs in [entry] when the case of the letters is ignored. *)
Definition occurs_ignoring_case (filter entry : string) : Prop :=
  exists pre suf, toLowerCase entry = (pre ++ toLowerCase filter ++ suf)%string.

(** The same, as a test. *)
Definition matches (filter entry : string) : bool :=
  includes (toLowerCase entry) (toLowerCase filter).

(** The most recent [n] entries of a chronological list: its last [n]. *)
Definition most_recent {A} (n : nat) (entries : list A) : list A :=
  skipn (List.length entries - n) entries.

(** "Tail N after filter": the entries whose text matches the filter, when
    one is given, and of these the most recent [n], when a limit is given. *)
Definition select {A} (text : A -> string) (filter : option string) (limit : option nat)
    (entries : list A) : list A :=
  let kept :=
    match filter with
    | Some f => List.filter (fun x => matches f (text x)) entries
    | None => entries
    end in
  match limit with
  | Some n => most_recent n kept
  | None => kept
  end.

(** A limit that the claims call "treated as if no limit were given":
    zero, or a number that is not finite. *)
Definition zero_or_not_finite (n : Number) : Prop :=
  match n with
  | Finite q => Qeq q 0
  | NaN | PosInfinity | NegInfinity => True
  end.

End Contract.

(* ================================================================== *)
(** * Auxiliary views of the code *)
(* ================================================================== *)

Module Views.

(** a natural number as a JavaScript number *)
Definition of_nat (n : nat) : Number := Finite (inject_Z (Z.of_nat n)).

(** the order of the default sort, as a relation *)
Definition le (a b : string) : Prop := is_true (String.leb a b).

(** The filter step and the limit step of [handleGetArtifact], as the
    handler writes them, on the entries of a log. *)
Definition kept_by_handler {A} (text : A -> string) (grep : option string)
    (limit : option Number) (entries : list A) : list A :=
  let entries :=
    match nonempty (option_map toLowerCase grep) with
    | Some g => List.filter (fun x => includes (toLowerCase (text x)) g) entries
    | None => entries
    end in
  match
    match limit with
    | Some n => if truthy n && Number_isFinite n then Some n else None
    | None => None
    end
  with
  | Some n => if truthy n then Array_slice (neg n) entries else entries
  | None => entries
  end.

End Views.

(* ================================================================== *)
(** * Sample inputs *)
(* ================================================================== *)

Module Sample.

(** A compact rendering of JSON values, without escapes. *)
Definition digits (z : Z) : string :=
  DecimalString.NilEmpty.string_of_int (Z.to_int z).

Fixpoint render (j : Json) : string :=
  match j with
  | JNull => "null"
  | JBool true => "true"
  | JBool false => "false"
  | JNum z => digits z
  | JStr s => (String (ascii_of_nat 34) s ++ String (ascii_of_nat 34) "")%string
  | JArr items =>
      ("[" ++ String.concat "," (map render items) ++ "]")%string
  | JObj fields =>
      ("{" ++ String.concat ","
         ((fix go (l : list (string * Json)) : list string :=
             match l with
             | [] => []
             | (k, v) :: rest =>
                 (String (ascii_of_nat 34) k ++ String (ascii_of_nat 34) ":" ++ render v)%string
                 :: go rest
             end) fields) ++ "}")%string
  end.

Definition last_segment (p : string) : string :=
  (fix go (s acc : string) : string :=
     match s with
     | EmptyString => acc
     | String c s' =>
         if Ascii.eqb c (ascii_of_nat 47) then go s' EmptyString
         else go s' (acc ++ String c EmptyString)%string
     end) p EmptyString.

(** three recorded events, as text and as the value it parses to *)
Definition event1 : Json :=
  JObj [("type", JStr "step:start"); ("name", JStr "open"); ("time", JNum 1)].
Definition event2 : Json :=
  JObj [("type", JStr "screenshot"); ("name", JStr "before_open"); ("time", JNum 2)].
Definition event3 : Json :=
  JObj [("type", JStr "step:end"); ("name", JStr "open"); ("time", JNum 3)].

Definition three_events : list Json := [event1; event2; event3].

Definition three_events_text : string := render (JArr three_events).

(** A runtime to evaluate the definitions with: paths under [/work], and a
    parser that knows the text of [three_events]. *)
Definition runtime : NodeRuntime :=
  {| path_resolve := fun a b => ("/work/" ++ a ++ "/" ++ b)%string;
     path_resolve1 := fun p => ("/work/" ++ p)%string;
     path_join := fun a b => (a ++ "/" ++ b)%string;
     path_basename := last_segment;
     path_isAbsolute := fun p => String.prefix "/" p;
     JSON_parse := fun s => if (s =? three_events_text)%string
                            then Some (JArr three_events) else None;
     JSON_stringify := render;
     JSON_stringify_indent := fun j _ => render j;
     Number_of := fun s => match DecimalString.NilEmpty.uint_of_string s with
                           | Some d => Finite (inject_Z (Z.of_nat (Nat.of_uint d)))
                           | None => NaN
                           end;
     Date_toISOString := digits |}.

(** the console log of the specification's example, one event per line *)
Definition console_text : string :=
  ("[INFO] ok" ++ nl ++ "[ERROR] boom" ++ nl)%string.

(** A run directory [runs/r1] of [node] holding one file; nothing else
    exists. *)
Definition disk_of (node : NodeRuntime) (fileName content : string) : FileSystem :=
  fun p =>
    let dir := path_resolve node "runs" "r1" in
    if (p =? path_join node dir fileName)%string then Some (File content)
    else if (p =? dir)%string then Some (Dir [fileName])
    else None.

(** Two states of the disk in which [runs/r1] has the same entries, listed
    in a different order, next to files that differ. *)
Definition listing : list string :=
  ["before_open.png"; "console.log"; "after_open.png"; "trace.zip"].

Definition disk_listing (entries : list string) (other : string) : FileSystem :=
  fun p =>
    if (p =? "/work/runs/r1")%string then Some (Dir entries)
    else if (p =? "/work/notes.txt")%string then Some (File other)
    else None.

(** no run directory at all *)
Definition empty_disk : FileSystem := fun _ => None.

End Sample.

(* ================================================================== *)
(** * The step and run contracts, in the words of the specification *)
(* ================================================================== *)

Module RunContract.

Import Tools.

(** The order of events that the specification's ordering invariant gives
    for one step: the [before] screenshot, [step:start], the events of the
    body, then [step:end] and the [after] screenshot when the body
    succeeded, or [step:error] and the [on_error] screenshot, and nothing
    more, when it failed. *)
Definition claimed_step_events (name : string) (body_events : list Action)
    (outcome : Completion unit) (events : list Action) : Prop :=
  exists t0 t1 t2 t3,
    events =
      [screenshot ("before_" ++ name) t0; step_start name t1] ++ body_events ++
      match outcome with
      | Returned _ => [step_end name t2; screenshot ("after_" ++ name) t3]
      | Thrown e => [step_error name (String_of e) t2; screenshot ("on_error_" ++ name) t3]
      end.

(** [step:end(name)] or [step:error(name)] *)
Definition closes (name : string) (a : Action) : bool :=
  match a with
  | step_end n _ | step_error n _ _ => (n =? name)%string
  | _ => false
  end.

Definition is_step_error (a : Action) : bool :=
  match a with
  | step_error _ _ _ => true
  | _ => false
  end.

(** The events one invocation of [step(name, ...)] must record by the
    specification: [step:start(name)] first, and exactly one closing event
    for [name] among its own events. *)
Definition claimed_step_closing (name : string) (own_events : list Action) : Prop :=
  (exists t rest, own_events = step_start name t :: rest)
  /\ List.length (filter (closes name) own_events) = 1%nat.



(** the listeners that [runTest] attaches *)
Definition attached : list (string * Listener) :=
  [("console", on_console); ("requestfinished", on_requestfinished)].

End RunContract.

(* ================================================================== *)
(** * Auxiliary views of the run engine *)
(* ================================================================== *)

Module EngineViews.

Import Tools.
Local Open Scope run_scope.

(** What [helpers.step] does before it enters its [try]: it records
    [step:start] and takes the [before] screenshot. *)
Definition step_prelude (node : NodeRuntime) (W : World) (artifactsDir name : string)
    : M unit :=
  t <- Date_now W ;;
  modify (push_action (step_start name t)) ;;
  helpers_screenshot node W artifactsDir ("before_" ++ name).

(** [m] only appends to the recorded actions. *)
Definition appends {A} (m : M A) : Prop :=
  forall s, exists events, actions (snd (m s)) = actions s ++ events.

(** [m] keeps the property [I] of the state of the run. *)
Definition keeps {A} (I : Run -> Prop) (m : M A) : Prop :=
  forall s, I s -> I (snd (m s)).



(** A recorded [step:error] stands behind every [FAIL] set so far, and the
    converse. *)
Definition failed_only_after_step_error (s : Run) : Prop :=
  status s = FAIL -> existsb RunContract.is_step_error (actions s) = true.

Definition failed_after_step_error (s : Run) : Prop :=
  existsb RunContract.is_step_error (actions s) = true -> status s = FAIL.

(** no screenshot capture is ever rejected *)
Definition always_captures (W : World) : Prop :=
  forall n file, page_screenshot W n file = Fulfilled.

(** whether the engine's [catch] ran: the body of its [try] threw *)
Definition engine_caught (node : NodeRuntime) (W : World) (artifactsDir scriptPath : string)
    : bool :=
  match fst (try_block node W artifactsDir scriptPath initial) with
  | Returned _ => false
  | Thrown _ => true
  end.

(** the calls of [close] among the effects of a run, and its file writes *)
Definition close_calls (effects : list Effect) : list Resource :=
  flat_map (fun e => match e with closed r => [r] | _ => [] end) effects.

Definition file_writes (effects : list Effect) : list (string * string) :=
  flat_map (fun e => match e with writeFile p d => [(p, d)] | _ => [] end) effects.

End EngineViews.

(* ================================================================== *)
(** * Sample runs *)
(* ================================================================== *)

Module Scenario.

Import Tools.

(** A world in which the script file exists and exports [script] as its
    default, the clock counts its readings, and every call of the browser
    and of the file system succeeds, except that screenshot captures settle
    as [shots] says and stopping the trace as [stop] says. *)
Definition world (script : Script) (shots : nat -> string -> Settled) (stop : Settled)
    : World :=
  {| existsSync := fun _ => true;
     mkdirSync := fun _ => Fulfilled;
     new_Date := {| getFullYear := 2025; getMonth := 0; getDate := 9;
                    getHours := 8; getMinutes := 7; getSeconds := 6 |};
     clock := fun n => Z.of_nat n;
     chromium_launch := Fulfilled;
     browser_newContext := Fulfilled;
     context_newPage := Fulfilled;
     tracing_start := Fulfilled;
     import := fun _ => Returned {| default := Some (is_function script);
                                    run := None; runner := None |};
     page_goto := Fulfilled;
     page_screenshot := shots;
     tracing_stop := stop;
     close := fun _ => Fulfilled;
     writeFileSync := fun _ _ => Fulfilled |}.

Definition all_captured : nat -> string -> Settled := fun _ _ => Fulfilled.

(** the first [n] captures succeed, the later ones are rejected *)
Definition captured_until (n : nat) : nat -> string -> Settled :=
  fun k _ => if (k <? n)%nat then Fulfilled else Rejected (Error "Target closed").

(** [step('open', ...)] around a body that succeeds *)
Definition passing_script : Script := Step "open" Return Return.

(** a script that goes on after a failed step *)
Definition tolerant_script : Script :=
  TryCatch (Step "open" (Throw (Error "boom")) Return) (fun _ => Return) Return.


End Scenario.

(* ================================================================== *)
(** * The rest of the retrieval service *)
(* ================================================================== *)

Module AgentRoutes.

Import Agent.

(** What a route does with the response: it answers with a body, or it
    pipes a file into the response under a content type. *)
Inductive RouteResponse : Type :=
| answered (r : HttpResponse)
| streamed (type file : string).

Section WithRuntime.

Variable node : NodeRuntime.
Variable disk : FileSystem.

(** [app.get('/runs/:runId/screenshot/:name', ...)] *)
Definition route_screenshot (runId name : string) : RouteResponse :=
  match ensureRunDir node disk runId with
  | Returned dir =>
      let file := path_join node dir (name ++ ".png") in
      if negb (fs.existsSync disk file)
      then answered (res_json 404 (error_object "screenshot not found"))
      else streamed "png" file
  | Thrown e => answered (res_json 500 (error_object (String_of e)))
  end.

(** [app.get('/runs/:runId/trace', ...)] *)
Definition route_trace (runId : string) : RouteResponse :=
  match ensureRunDir node disk runId with
  | Returned dir =>
      let file := path_join node dir "trace.zip" in
      if negb (fs.existsSync disk file)
      then answered (res_json 404 (error_object "trace not found"))
      else streamed "application/zip" file
  | Thrown e => answered (res_json 500 (error_object (String_of e)))
  end.

End WithRuntime.

End AgentRoutes.

(* ================================================================== *)
(** * Further views and sample inputs of the retrieval service *)
(* ================================================================== *)

Module ServiceViews.

Import Agent.

(** A flag of the index tells whether the directory has the entry. *)
Definition reflects (flag : option string) (f : string) (entries : list string) : Prop :=
  (flag = Some f /\ In f entries) \/ (flag = None /\ ~ In f entries).

(** The log file of a kind. *)
Definition log_file (kind : string) : option string :=
  if (kind =? "console")%string then Some "console.log"
  else if (kind =? "network")%string then Some "network.log"
  else if (kind =? "actions")%string then Some "actions.json"
  else None.

(** A run directory whose logs can be read: the directory is a directory,
    each log that exists is a file, and the actions log, when it exists,
    parses to an array. *)
Definition readable_run (node : NodeRuntime) (disk : FileSystem) (runId : string) : Prop :=
  let dir := path_resolve node "runs" runId in
  (exists entries, disk dir = Some (Dir entries))
  /\ (forall f, In f ["console.log"; "network.log"] ->
        disk (path_join node dir f) = None
        \/ exists content, disk (path_join node dir f) = Some (File content))
  /\ (disk (path_join node dir "actions.json") = None
      \/ exists content events,
           disk (path_join node dir "actions.json") = Some (File content)
           /\ JSON_parse node content = Some (JArr events)).

(** A finite number strictly between -1 and 1 that is not zero. *)
Definition proper_fraction (q : Q) : Prop :=
  (Qnum q <> 0 /\ Z.abs (Qnum q) < Zpos (Qden q))%Z.

(** a run directory [runs/r1] of the sample runtime with a console log, an
    actions log that does not parse, and a trace *)
Definition sample_disk : FileSystem :=
  fun p =>
    if (p =? "/work/runs/r1")%string
    then Some (Dir ["console.log"; "actions.json"; "trace.zip"; "b.png"; "a.png"])
    else if (p =? "/work/runs/r1/console.log")%string then Some (File Sample.console_text)
    else if (p =? "/work/runs/r1/actions.json")%string then Some (File "not json")
    else if (p =? "/work/runs/r1/trace.zip")%string then Some (File "PK")
    else if (p =? "/work/runs/r1/a.png")%string then Some (File "PNG")
    else if (p =? "/work/runs/r1/b.png")%string then Some (File "PNG")
    else None.

(** the same with an actions log that parses *)
Definition readable_disk : FileSystem :=
  fun p =>
    if (p =? "/work/runs/r1/actions.json")%string
    then Some (File Sample.three_events_text)
    else sample_disk p.

End ServiceViews.

(* ================================================================== *)
(** * Further views and sample inputs of the run engine *)
(* ================================================================== *)

Module RunViews.

Import Tools.




(** Sequences of actions in which the steps are nested: a screenshot stands
    alone, and a [step:start] is followed by a nested sequence and then by
    the [step:end] or [step:error] of the same name. A [step:start] that is
    never closed is allowed only when [strict] is [false]. *)
Inductive nested (strict : bool) : list Action -> Prop :=
| nested_nil : nested strict []
| nested_screenshot (name : string) (t : Z) (rest : list Action) :
    nested strict rest -> nested strict (screenshot name t :: rest)
| nested_step (name : string) (t : Z) (inner : list Action) (closing : Action)
    (rest : list Action) :
    nested strict inner -> RunContract.closes name closing = true -> nested strict rest ->
    nested strict (step_start name t :: inner ++ closing :: rest)
| nested_open (name : string) (t : Z) (rest : list Action) :
    strict = false -> nested strict rest -> nested strict (step_start name t :: rest).

(** [m] appends a nested sequence to the recorded actions. *)
Definition nests {A} (strict : bool) (m : M A) : Prop :=
  forall s, exists events,
    actions (snd (m s)) = actions s ++ events /\ nested strict events.

(** the names of the screenshots recorded, and the files captured *)
Definition shot_names (events : list Action) : list string :=
  flat_map (fun a => match a with screenshot n _ => [n] | _ => [] end) events.

Definition pngs (effects : list Effect) : list string :=
  flat_map (fun e => match e with png p => [p] | _ => [] end) effects.



(** the screenshots on the disk are those of the recorded actions *)
Definition captured_as_recorded (node : NodeRuntime) (dir : string) (s : Run) : Prop :=
  pngs (effects s)
  = map (fun n => path_join node dir (n ++ ".png")) (shot_names (actions s)).

(** The function that the script at [scriptPath] gives to run, if any:
    the module loads, and the first of [default], [run] and [runner] whose
    value is neither [undefined] nor [null] is a function. *)
Definition loaded_runner (node : NodeRuntime) (W : World) (scriptPath : string)
    : option Script :=
  match import W (toFileHref node scriptPath) with
  | Returned m =>
      match candidate m with
      | Some (is_function body) => Some body
      | _ => None
      end
  | Thrown _ => None
  end.

(** what is written to [actions.json] for a list of actions *)
Definition persisted (node : NodeRuntime) (events : list Action) : string :=
  JSON_stringify_indent node (JArr (map json_of_action events)) 2.


(** A local time as the calendar gives it: a year of four digits, a month
    from 0 to 11, and so on. *)
Definition calendar (d : LocalTime) : Prop :=
  (1000 <= getFullYear d < 100 * 100 /\ getMonth d <= 11 /\ getDate d <= 31
   /\ getHours d <= 23 /\ getMinutes d <= 59 /\ getSeconds d <= 59)%nat.

(** the order of two local times: by year, then month, and so on *)
Definition then_by (c : comparison) (next : comparison) : comparison :=
  match c with
  | Eq => next
  | _ => c
  end.

Definition chronological (d1 d2 : LocalTime) : comparison :=
  then_by (Nat.compare (getFullYear d1) (getFullYear d2))
    (then_by (Nat.compare (getMonth d1) (getMonth d2))
       (then_by (Nat.compare (getDate d1) (getDate d2))
          (then_by (Nat.compare (getHours d1) (getHours d2))
             (then_by (Nat.compare (getMinutes d1) (getMinutes d2))
                (Nat.compare (getSeconds d1) (getSeconds d2)))))).

(** [c] occurs in [s] *)
Fixpoint mentions (c : ascii) (s : string) : bool :=
  match s with
  | EmptyString => false
  | String d s' => Ascii.eqb d c || mentions c s'
  end.

Definition backslash : ascii := ascii_of_nat 92.

(** the lines that the listeners append to a log file *)
Definition appended (path : string) (effects : list Effect) : list string :=
  flat_map (fun e => match e with
                     | appendFile p data => if (p =? path)%string then [data] else []
                     | _ => []
                     end) effects.

(** the console messages among the fired events *)
Definition console_messages (events : list PageEvent) : list (string * string) :=
  flat_map (fun ev => match ev with console type text => [(type, text)] | _ => [] end)
    events.

(** a line of the console log: [[<time>] [<type>] <text>] and a line feed *)
Definition console_line (node : NodeRuntime) (t : Z) (message : string * string) : string :=
  ("[" ++ Date_toISOString node t ++ "] [" ++ fst message ++ "] " ++ snd message ++ nl)%string.

(** The console log holds the console messages of the page: a line for
    each message, in the order of the messages, each with a time that the
    clock gave. *)
Definition logged (node : NodeRuntime) (W : World) (dir : string) (s : Run) : Prop :=
  Forall2 (fun line message => exists k, line = console_line node (clock W k) message)
    (appended (consoleLogPath node dir) (effects s)) (console_messages (fired s)).

End RunViews.

Module MoreScenarios.

Import Tools Scenario.

(** the world of [Scenario.world] with a browser that fails to start in
    one of its three steps *)
Definition startup (launch newContext newPage : Settled) : World :=
  let W := world passing_script all_captured Fulfilled in
  {| existsSync := existsSync W; mkdirSync := mkdirSync W; new_Date := new_Date W;
     clock := clock W;
     chromium_launch := launch;
     browser_newContext := newContext;
     context_newPage := newPage;
     tracing_start := tracing_start W; import := import W; page_goto := page_goto W;
     page_screenshot := page_screenshot W; tracing_stop := tracing_stop W;
     close := close W; writeFileSync := writeFileSync W |}.

(** the world of [Scenario.world] with a script module given as it is *)
Definition loading (m : ScriptModule) : World :=
  let W := world Return all_captured Fulfilled in
  {| existsSync := existsSync W; mkdirSync := mkdirSync W; new_Date := new_Date W;
     clock := clock W;
     chromium_launch := chromium_launch W;
     browser_newContext := browser_newContext W;
     context_newPage := context_newPage W;
     tracing_start := tracing_start W;
     import := fun _ => Returned m;
     page_goto := page_goto W;
     page_screenshot := page_screenshot W; tracing_stop := tracing_stop W;
     close := close W; writeFileSync := writeFileSync W |}.

(** a module whose default export is a number ([export default 42]), next
    to a [run] that is a function *)
Definition shadowed : ScriptModule :=
  {| default := Some not_function; run := Some (is_function passing_script);
     runner := None |}.

(** a module whose default export is [null] ([export default null]), next
    to a [run] that is a function *)
Definition null_default : ScriptModule :=
  {| default := None; run := Some (is_function passing_script); runner := None |}.

(** two steps, the second inside the first, and a bare screenshot *)
Definition nested_script : Script :=
  Step "outer" (Step "inner" Return (Screenshot "detail" Return)) Return.


(** a script that fails in every way a script can: a screenshot, a step
    that throws, a handler that throws again *)
Definition failing_everything_script : Script :=
  TryCatch (Screenshot "first" (Step "open" (Throw (Error "boom")) Return))
    (fun e => Throw e) Return.

(** a page that logs twice and finishes a request *)
Definition chatty_script : Script :=
  Page (console "log" "ready")
    (Page (requestfinished "GET" "http://localhost/" (response_status 200))
       (Page (console "error" "failed to load") Return)).

Definition morning : LocalTime :=
  {| getFullYear := 2025; getMonth := 0; getDate := 9;
     getHours := 8; getMinutes := 7; getSeconds := 6 |}.

Definition evening : LocalTime :=
  {| getFullYear := 2025; getMonth := 0; getDate := 9;
     getHours := 20; getMinutes := 0; getSeconds := 0 |}.

End MoreScenarios.

(* ================================================================== *)
(** * Facts about the JavaScript primitives *)
(* ================================================================== *)

Module JSFacts.

Import Views.

(** ** Substring search *)

Lemma prefix_app (g s : string) :
  prefix g s = true <-> exists suf, s = (g ++ suf)%string.
Proof.
  revert s; induction g as [|c g IH]; intros s; simpl.
  - destruct s; simpl; split; eauto.
  - destruct s as [|d s]; simpl.
    + split; [discriminate | intros [suf H]; discriminate].
    + destruct (ascii_dec c d) as [->|Hne].
      * rewrite IH. split; intros [suf H]; exists suf.
        -- now rewrite H.
        -- now inversion H.
      * split; [discriminate | intros [suf H]; inversion H; congruence].
Qed.

Lemma includes_occurs (s g : string) :
  includes s g = true <-> exists pre suf, s = (pre ++ g ++ suf)%string.
Proof.
  induction s as [|c s IH].
  - change (includes EmptyString g) with (prefix g EmptyString || false).
    rewrite orb_false_r, prefix_app. split.
    + intros [suf H]. exists EmptyString, suf. exact H.
    + intros [pre [suf H]]. destruct pre; simpl in H.
      * now exists suf.
      * discriminate.
  - change (includes (String c s) g) with (prefix g (String c s) || includes s g).
    rewrite orb_true_iff, IH, prefix_app. split.
    + intros [[suf H] | [pre [suf H]]].
      * exists EmptyString, suf. exact H.
      * exists (String c pre), suf. simpl. now rewrite H.
    + intros [pre [suf H]]. destruct pre as [|d pre]; simpl in H.
      * left. now exists suf.
      * right. exists pre, suf. now inversion H.
Qed.

Lemma includes_empty (s : string) : includes s EmptyString = true.
Proof. destruct s; reflexivity. Qed.

(** ** [slice] with a negative integer start keeps a tail *)

Lemma truthy_of_nat (n : nat) : truthy (of_nat n) = negb (n =? 0)%nat.
Proof.
  unfold truthy, of_nat, Qeq_bool, inject_Z; simpl.
  rewrite Z.mul_1_r. destruct n; simpl; reflexivity.
Qed.

Lemma slice_start_neg (n len : nat) :
  (0 < n)%nat -> slice_start (neg (of_nat n)) len = (len - n)%nat.
Proof.
  intros Hn. unfold slice_start, neg, of_nat, inject_Z, Qopp; simpl.
  rewrite Z.quot_1_r.
  destruct (Z.ltb_spec (- Z.of_nat n) 0); lia.
Qed.

Lemma Array_slice_neg {A} (n : nat) (l : list A) :
  (0 < n)%nat -> Array_slice (neg (of_nat n)) l = skipn (List.length l - n) l.
Proof. intros Hn. unfold Array_slice. now rewrite slice_start_neg. Qed.

(** ** The default sort gives one result per multiset of names *)

Lemma leb_trans (a b c : string) :
  String.leb a b = true -> String.leb b c = true -> String.leb a c = true.
Proof.
  unfold String.leb. intros Hab Hbc.
  destruct (String.compare a b) eqn:Eab; try discriminate.
  - apply String_as_OT.cmp_eq in Eab. subst b. exact Hbc.
  - destruct (String.compare b c) eqn:Ebc; try discriminate.
    + apply String_as_OT.cmp_eq in Ebc. subst c. now rewrite Eab.
    + apply String_as_OT.cmp_lt in Eab, Ebc.
      pose proof (String_as_OT.lt_trans _ _ _ Eab Ebc) as Hac.
      apply String_as_OT.cmp_lt in Hac.
      unfold String_as_OT.cmp in Hac. now rewrite Hac.
Qed.

Lemma sorted_permutation_unique (l1 l2 : list string) :
  StronglySorted le l1 -> StronglySorted le l2 -> Permutation l1 l2 -> l1 = l2.
Proof.
  revert l2; induction l1 as [|a l1 IH]; intros l2 S1 S2 P.
  - now apply Permutation_nil in P.
  - destruct l2 as [|b l2].
    + symmetry in P. now apply Permutation_nil in P.
    + apply StronglySorted_inv in S1 as [S1 F1].
      apply StronglySorted_inv in S2 as [S2 F2].
      assert (a = b) as ->.
      { assert (Ha : In a (b :: l2)) by (eapply Permutation_in; [exact P | now left]).
        assert (Hb : In b (a :: l1))
          by (eapply Permutation_in; [symmetry; exact P | now left]).
        destruct Ha as [->|Ha]; [reflexivity|].
        destruct Hb as [->|Hb]; [reflexivity|].
        rewrite Forall_forall in F1, F2.
        apply String.leb_antisym; [apply F1, Hb | apply F2, Ha]. }
      f_equal. apply IH; trivial. eapply Permutation_cons_inv; exact P.
Qed.

Lemma Array_sort_sorted (l : list string) : StronglySorted le (Array_sort l).
Proof.
  apply Sorted_StronglySorted.
  - intros a b c. apply leb_trans.
  - apply StringSort.Sorted_sort.
Qed.

Lemma Array_sort_permutation (l1 l2 : list string) :
  Permutation l1 l2 -> Array_sort l1 = Array_sort l2.
Proof.
  intros P. apply sorted_permutation_unique; try apply Array_sort_sorted.
  unfold Array_sort.
  rewrite <- (StringSort.Permuted_sort l1), <- (StringSort.Permuted_sort l2).
  exact P.
Qed.

Lemma filter_permutation {A} (f : A -> bool) (l1 l2 : list A) :
  Permutation l1 l2 -> Permutation (filter f l1) (filter f l2).
Proof.
  induction 1; simpl; auto.
  - destruct (f x); auto.
  - destruct (f x), (f y); auto. apply perm_swap.
  - eauto using Permutation_trans.
Qed.

Lemma Array_includes_permutation (l1 l2 : list string) (x : string) :
  Permutation l1 l2 -> Array_includes l1 x = Array_includes l2 x.
Proof.
  intros P. unfold Array_includes.
  apply eq_true_iff_eq. rewrite !existsb_exists.
  split; intros [y [Hin Hy]]; exists y; split; trivial.
  - eapply Permutation_in; [exact P | exact Hin].
  - eapply Permutation_in; [apply Permutation_sym; exact P | exact Hin].
Qed.

End JSFacts.

(* ================================================================== *)
(** * The artifact retrieval service *)
(* ================================================================== *)

Module AgentFacts.

Import Agent Contract Views JSFacts.

(** ** The filter and the limit *)

Lemma toLowerCase_empty (s : string) : toLowerCase s = EmptyString -> s = EmptyString.
Proof. destruct s; [reflexivity | discriminate]. Qed.

Lemma filter_all {A} (f : A -> bool) (l : list A) :
  (forall x, f x = true) -> filter f l = l.
Proof.
  intros H. induction l as [|a l IH]; simpl; [reflexivity|].
  now rewrite H, IH.
Qed.

(** The filter step of the handler: an empty filter keeps every entry, as
    does no filter. *)
Lemma filter_step {A} (text : A -> string) (filter : option string) (entries : list A) :
  match nonempty (option_map toLowerCase filter) with
  | Some g => List.filter (fun x => includes (toLowerCase (text x)) g) entries
  | None => entries
  end = select text filter None entries.
Proof.
  unfold select. destruct filter as [f|]; simpl; [|reflexivity].
  destruct (toLowerCase f) eqn:E; simpl.
  - apply toLowerCase_empty in E. subst f. symmetry. apply filter_all.
    intros x. unfold matches. apply includes_empty.
  - unfold matches. now rewrite E.
Qed.

Lemma nonempty_toLowerCase (grep : option string) :
  nonempty (option_map toLowerCase grep) = option_map toLowerCase (nonempty grep).
Proof. destruct grep as [[|c s]|]; reflexivity. Qed.

(** The limit step of the handler, for a limit that is a positive count. *)
Lemma limit_step {A} (limit : option nat) (entries : list A) :
  limit <> Some 0%nat ->
  match
    match option_map of_nat limit with
    | Some n => if truthy n && Number_isFinite n then Some n else None
    | None => None
    end
  with
  | Some n => if truthy n then Array_slice (neg n) entries else entries
  | None => entries
  end = match limit with
        | Some n => most_recent n entries
        | None => entries
        end.
Proof.
  intros Hpos. destruct limit as [n|]; cbn [option_map]; [|reflexivity].
  assert (Hn : (0 < n)%nat) by (destruct n; [congruence | lia]).
  rewrite truthy_of_nat.
  replace (n =? 0)%nat with false by (symmetry; apply Nat.eqb_neq; lia).
  cbn [negb andb of_nat Number_isFinite].
  fold (of_nat n). rewrite truthy_of_nat.
  replace (n =? 0)%nat with false by (symmetry; apply Nat.eqb_neq; lia).
  cbn [negb]. now apply Array_slice_neg.
Qed.

(** ** The handler on a run directory that exists *)

Section Retrieval.

Variable node : NodeRuntime.
Variable disk : FileSystem.
Variable runId : string.

Let dir : string := path_resolve node "runs" runId.

Lemma ensureRunDir_found :
  fs.existsSync disk dir = true -> ensureRunDir node disk runId = Returned dir.
Proof. intros H. unfold ensureRunDir. fold dir. now rewrite H. Qed.

Lemma existsSync_file (p content : string) :
  disk p = Some (File content) -> fs.existsSync disk p = true.
Proof. intros H. unfold fs.existsSync. now rewrite H. Qed.

Lemma readFileSync_file (p content : string) :
  disk p = Some (File content) -> fs.readFileSync disk p = Returned content.
Proof. intros H. unfold fs.readFileSync. now rewrite H. Qed.

Lemma handleGetArtifact_lines (kind fileName content : string)
    (name grep : option string) (limit : option Number) :
  In (kind, fileName) [("console", "console.log"); ("network", "network.log")] ->
  fs.existsSync disk dir = true ->
  disk (path_join node dir fileName) = Some (File content) ->
  handleGetArtifact node disk runId kind name grep limit
  = Returned (join_lines (kept_by_handler id grep limit (split_lines content))).
Proof.
  intros Hkind Hdir Hfile.
  unfold handleGetArtifact. rewrite (ensureRunDir_found Hdir).
  destruct Hkind as [E | [E | []]]; inversion E; subst kind fileName; cbn;
    rewrite (existsSync_file _ _ Hfile), (readFileSync_file _ _ Hfile); reflexivity.
Qed.

Lemma handleGetArtifact_actions (content : string) (events : list Json)
    (name grep : option string) (limit : option Number) :
  fs.existsSync disk dir = true ->
  disk (path_join node dir "actions.json") = Some (File content) ->
  JSON_parse node content = Some (JArr events) ->
  handleGetArtifact node disk runId "actions" name grep limit
  = Returned (JSON_stringify node
                (JArr (kept_by_handler (JSON_stringify node) grep limit events))).
Proof.
  intros Hdir Hfile Hparse.
  unfold handleGetArtifact. rewrite (ensureRunDir_found Hdir). cbn.
  rewrite (existsSync_file _ _ Hfile), (readFileSync_file _ _ Hfile). cbn.
  unfold parse. rewrite Hparse. cbn. unfold kept_by_handler.
  destruct (nonempty (option_map toLowerCase grep)); cbn;
    destruct limit as [n|]; cbn; try reflexivity;
    destruct (truthy n && Number_isFinite n); cbn; try reflexivity;
    destruct (truthy n); reflexivity.
Qed.

(** The same on an actions log that parses, through [items_of]. *)
Lemma handleGetArtifact_items (content : string) (parsed : Json) (events : list Json)
    (name grep : option string) (limit : option Number) :
  fs.existsSync disk dir = true ->
  disk (path_join node dir "actions.json") = Some (File content) ->
  JSON_parse node content = Some parsed ->
  items_of parsed = JArr events ->
  handleGetArtifact node disk runId "actions" name grep limit
  = Returned (JSON_stringify node
                (JArr (kept_by_handler (JSON_stringify node) grep limit events))).
Proof.
  intros Hdir Hfile Hparse Hitems.
  unfold handleGetArtifact. rewrite (ensureRunDir_found Hdir). cbn.
  rewrite (existsSync_file _ _ Hfile), (readFileSync_file _ _ Hfile). cbn.
  unfold parse. rewrite Hparse. cbn. rewrite Hitems. unfold kept_by_handler.
  destruct (nonempty (option_map toLowerCase grep)); cbn;
    destruct limit as [n|]; cbn; try reflexivity;
    destruct (truthy n && Number_isFinite n); cbn; try reflexivity;
    destruct (truthy n); reflexivity.
Qed.

(** ** The HTTP log route on a run directory that exists *)

Lemma route_log_lines (kind fileName content : string) (grep q_limit : option string) :
  In (kind, fileName) [("console", "console.log"); ("network", "network.log")] ->
  fs.existsSync disk dir = true ->
  disk (path_join node dir fileName) = Some (File content) ->
  route_log node disk runId kind grep q_limit
  = res_text (join_lines (kept_by_handler id grep
                            (option_map (Number_of node) (nonempty q_limit))
                            (split_lines content))).
Proof.
  intros Hkind Hdir Hfile.
  unfold route_log, route_log_body. rewrite (ensureRunDir_found Hdir).
  unfold kept_by_handler. rewrite nonempty_toLowerCase.
  destruct Hkind as [E | [E | []]]; inversion E; subst kind fileName; cbn;
    rewrite (existsSync_file _ _ Hfile), (readFileSync_file _ _ Hfile); cbn;
    destruct (nonempty grep); destruct (nonempty q_limit) as [l|]; cbn;
    try reflexivity;
    destruct (truthy (Number_of node l)) eqn:Et;
    destruct (Number_isFinite (Number_of node l)); cbn; rewrite ?Et; reflexivity.
Qed.

Lemma route_log_items (content : string) (parsed : Json) (events : list Json)
    (grep q_limit : option string) :
  fs.existsSync disk dir = true ->
  disk (path_join node dir "actions.json") = Some (File content) ->
  JSON_parse node content = Some parsed ->
  items_of parsed = JArr events ->
  route_log node disk runId "actions" grep q_limit
  = res_json 200
      (JArr (kept_by_handler (JSON_stringify node) grep
               (option_map (Number_of node) (nonempty q_limit)) events)).
Proof.
  intros Hdir Hfile Hparse Hitems.
  unfold route_log, route_log_body. rewrite (ensureRunDir_found Hdir). cbn.
  rewrite (existsSync_file _ _ Hfile), (readFileSync_file _ _ Hfile). cbn.
  unfold parse. rewrite Hparse. cbn. rewrite Hitems.
  unfold kept_by_handler. rewrite nonempty_toLowerCase.
  destruct (nonempty grep); destruct (nonempty q_limit) as [l|]; cbn;
    try reflexivity;
    destruct (truthy (Number_of node l)) eqn:Et;
    destruct (Number_isFinite (Number_of node l)); cbn; rewrite ?Et; reflexivity.
Qed.

End Retrieval.

Lemma kept_by_handler_select {A} (text : A -> string) (filter : option string)
    (limit : option nat) (entries : list A) :
  limit <> Some 0%nat ->
  kept_by_handler text filter (option_map of_nat limit) entries
  = select text filter limit entries.
Proof.
  intros Hpos. unfold kept_by_handler. rewrite filter_step.
  rewrite (limit_step limit _ Hpos). reflexivity.
Qed.

Lemma ignored_limit_test (n : Number) :
  zero_or_not_finite n -> truthy n && Number_isFinite n = false.
Proof.
  destruct n as [q| | |]; simpl; intros H; try reflexivity.
  apply Qeq_bool_iff in H. now rewrite H.
Qed.

Lemma matches_occurs (filter entry : string) :
  matches filter entry = true <-> occurs_ignoring_case filter entry.
Proof. apply includes_occurs. Qed.

End AgentFacts.

(* ================================================================== *)
(** * Properties of the retrieval service *)
(* ================================================================== *)

Module Service.

Import Agent Contract Views JSFacts AgentFacts.

(** C5 (the code differs). A retrieval for a run identifier that has no
    directory is not answered with an error object: [handleGetArtifact]
    throws, because [ensureRunDir] throws and nothing around it catches.
    The HTTP route for the index, on the same request, answers with the
    object [{ error }]. *)
Theorem unknown_run_is_thrown (node : NodeRuntime) :
  handleGetArtifact node Sample.empty_disk "2025-01-01-00-00-00" "index" None None None
  = Thrown (Error "Run not found: 2025-01-01-00-00-00")
  /\ route_index node Sample.empty_disk "2025-01-01-00-00-00"
     = res_json 404 (error_object "Error: Run not found: 2025-01-01-00-00-00").
Proof. split; reflexivity. Qed.

(** C6. When the run identifier has no directory, the request fails with
    "Run not found" whatever the kind is, [index] and unknown kinds
    included: the handler throws that error, and the HTTP routes answer
    with it, without looking at the kind, the name, the filter or the
    limit. *)
Theorem run_not_found_before_kind (node : NodeRuntime) (disk : FileSystem)
    (runId kind : string) (name grep : option string) (limit : option Number)
    (q_grep q_limit : option string) :
  fs.existsSync disk (path_resolve node "runs" runId) = false ->
  handleGetArtifact node disk runId kind name grep limit
  = Thrown (Error ("Run not found: " ++ runId))
  /\ route_log node disk runId kind q_grep q_limit
     = res_json 500 (error_object ("Error: Run not found: " ++ runId))
  /\ route_index node disk runId
     = res_json 404 (error_object ("Error: Run not found: " ++ runId)).
Proof.
  intros H.
  unfold handleGetArtifact, route_log, route_log_body, route_index, ensureRunDir.
  rewrite H. cbn. auto.
Qed.

Lemma run_not_found_before_kind_witness :
  fs.existsSync Sample.empty_disk (path_resolve Sample.runtime "runs" "r0") = false
  /\ handleGetArtifact Sample.runtime Sample.empty_disk "r0" "bogus" None None None
     = Thrown (Error "Run not found: r0").
Proof.
  split; [reflexivity|].
  apply (run_not_found_before_kind Sample.runtime Sample.empty_disk "r0" "bogus"
           None None None None None).
  reflexivity.
Defined.

(** What the handler selects. On an actions log the entries are the
    records; on a console or network log they are the segments that
    [split] gives, the empty one after the last line feed included. A
    filter is a case-insensitive substring test on each entry (on the
    rendering of each record), and a limit [N] keeps the last [N] of the
    entries that passed it. The two examples of the specification follow:
    filter "error" on the console log with the lines "[INFO] ok" and
    "[ERROR] boom" gives the second line, and limit 1 on an actions log of
    three events gives the last one. *)
Lemma handler_selects_among_segments :
  (forall filter entry,
      matches filter entry = true <-> occurs_ignoring_case filter entry)
  /\ (forall node disk runId kind fileName content name filter limit,
         In (kind, fileName) [("console", "console.log"); ("network", "network.log")] ->
         fs.existsSync disk (path_resolve node "runs" runId) = true ->
         disk (path_join node (path_resolve node "runs" runId) fileName)
         = Some (File content) ->
         limit <> Some 0%nat ->
         handleGetArtifact node disk runId kind name filter (option_map of_nat limit)
         = Returned (join_lines (select id filter limit (split_lines content))))
  /\ (forall node disk runId content events name filter limit,
         fs.existsSync disk (path_resolve node "runs" runId) = true ->
         disk (path_join node (path_resolve node "runs" runId) "actions.json")
         = Some (File content) ->
         JSON_parse node content = Some (JArr events) ->
         limit <> Some 0%nat ->
         handleGetArtifact node disk runId "actions" name filter (option_map of_nat limit)
         = Returned (JSON_stringify node
                       (JArr (select (JSON_stringify node) filter limit events))))
  /\ (forall node,
         handleGetArtifact node (Sample.disk_of node "console.log" Sample.console_text)
           "r1" "console" None (Some "error") None
         = Returned "[ERROR] boom")
  /\ (forall node content first second last,
         JSON_parse node content = Some (JArr [first; second; last]) ->
         handleGetArtifact node (Sample.disk_of node "actions.json" content)
           "r1" "actions" None None (Some (of_nat 1))
         = Returned (JSON_stringify node (JArr [last]))).
Proof.
  assert (Hdisk : forall node f c,
             fs.existsSync (Sample.disk_of node f c) (path_resolve node "runs" "r1") = true
             /\ Sample.disk_of node f c (path_join node (path_resolve node "runs" "r1") f)
                = Some (File c)).
  { intros node f c. unfold fs.existsSync, Sample.disk_of. split.
    - destruct (_ =? _)%string; [reflexivity|]. now rewrite String.eqb_refl.
    - now rewrite String.eqb_refl. }
  split; [exact matches_occurs|].
  split.
  { intros node disk runId kind fileName content name filter limit Hk Hd Hf Hl.
    rewrite (handleGetArtifact_lines node disk runId kind fileName content
               name filter _ Hk Hd Hf).
    now rewrite kept_by_handler_select. }
  split.
  { intros node disk runId content events name filter limit Hd Hf Hp Hl.
    rewrite (handleGetArtifact_actions node disk runId content events
               name filter _ Hd Hf Hp).
    now rewrite kept_by_handler_select. }
  split.
  { intros node. destruct (Hdisk node "console.log" Sample.console_text) as [Hd Hf].
    rewrite (handleGetArtifact_lines node _ "r1" "console" "console.log"
               Sample.console_text None (Some "error") None (or_introl eq_refl) Hd Hf).
    reflexivity. }
  { intros node content first second last Hp.
    destruct (Hdisk node "actions.json" content) as [Hd Hf].
    rewrite (handleGetArtifact_actions node _ "r1" content [first; second; last]
               None None (Some (of_nat 1)) Hd Hf Hp).
    reflexivity. }
Qed.

Example last_event_of_three :
  handleGetArtifact Sample.runtime
    (Sample.disk_of Sample.runtime "actions.json" Sample.three_events_text)
    "r1" "actions" None None (Some (of_nat 1))
  = Returned (Sample.render (JArr [Sample.event3])).
Proof. reflexivity. Qed.

(** C7 (the code differs). A limit on a console log counts the empty
    segment after the last line feed as the most recent entry. On the log
    with the two lines "[INFO] ok" and "[ERROR] boom", each ended by a line
    feed as the console listener writes them, limit 1 gives the empty
    string and limit 2 gives the last line only; with the filter "error"
    the empty segment is dropped and limit 1 gives the last line. *)
Theorem limit_counts_the_empty_last_segment (node : NodeRuntime) :
  let disk := Sample.disk_of node "console.log" Sample.console_text in
  split_lines Sample.console_text = ["[INFO] ok"; "[ERROR] boom"; ""]
  /\ handleGetArtifact node disk "r1" "console" None None (Some (of_nat 1))
     = Returned ""
  /\ handleGetArtifact node disk "r1" "console" None None (Some (of_nat 2))
     = Returned ("[ERROR] boom" ++ nl)%string
  /\ handleGetArtifact node disk "r1" "console" None (Some "error") (Some (of_nat 1))
     = Returned "[ERROR] boom".
Proof.
  cbv zeta.
  assert (Hd : fs.existsSync (Sample.disk_of node "console.log" Sample.console_text)
                 (path_resolve node "runs" "r1") = true).
  { unfold fs.existsSync, Sample.disk_of.
    destruct (_ =? _)%string; [reflexivity|]. now rewrite String.eqb_refl. }
  assert (Hf : Sample.disk_of node "console.log" Sample.console_text
                 (path_join node (path_resolve node "runs" "r1") "console.log")
               = Some (File Sample.console_text)).
  { unfold Sample.disk_of. now rewrite String.eqb_refl. }
  split; [reflexivity|].
  repeat split;
    rewrite (handleGetArtifact_lines node _ "r1" "console" "console.log"
               Sample.console_text None _ _ (or_introl eq_refl) Hd Hf);
    reflexivity.
Qed.

(** C9. The index is a function of the entries of the run directory and
    of nothing else: two states of the disk in which the directory has the
    same entries (in whatever order they are listed, whatever the files
    hold, whatever else the disk holds) give the same index. A second call
    on an unchanged directory is the case of one state taken twice. *)
Theorem index_determined_by_entries (node : NodeRuntime) (disk1 disk2 : FileSystem)
    (dir : string) (entries1 entries2 : list string) :
  fs.readdirSync disk1 dir = Returned entries1 ->
  fs.readdirSync disk2 dir = Returned entries2 ->
  Permutation entries1 entries2 ->
  buildArtifactIndex node disk1 dir = buildArtifactIndex node disk2 dir.
Proof.
  intros H1 H2 P. unfold buildArtifactIndex. rewrite H1, H2. cbn.
  unfold present.
  rewrite !(Array_includes_permutation entries1 entries2) by exact P.
  rewrite (Array_sort_permutation
             (filter (fun f => endsWith f ".png") entries1)
             (filter (fun f => endsWith f ".png") entries2))
    by (apply filter_permutation; exact P).
  reflexivity.
Qed.

Lemma index_determined_by_entries_witness :
  Permutation Sample.listing (rev Sample.listing)
  /\ buildArtifactIndex Sample.runtime
       (Sample.disk_listing Sample.listing "first") "/work/runs/r1"
     = buildArtifactIndex Sample.runtime
         (Sample.disk_listing (rev Sample.listing) "second") "/work/runs/r1".
Proof.
  split; [apply Permutation_rev|].
  apply (index_determined_by_entries Sample.runtime
           (Sample.disk_listing Sample.listing "first")
           (Sample.disk_listing (rev Sample.listing) "second")
           "/work/runs/r1" Sample.listing (rev Sample.listing)).
  - reflexivity.
  - reflexivity.
  - apply Permutation_rev.
Defined.

(** C10. A limit of zero, and a limit that is not a finite number ([NaN],
    [Infinity], [-Infinity]), is treated as no limit by the tool handler and
    by the HTTP log route, for the console, the network and the actions
    log: each answers as it does when no limit is given, and on a log that
    exists the answer holds every entry that passes the filter, neither
    fewer entries nor an error. For a console or network log the entries
    are the segments of the file between line feeds; for the actions log
    they are the elements of the array that the file holds (or of the
    array under [actions] of the object that it holds). *)
Theorem zero_or_not_finite_limit_is_no_limit (node : NodeRuntime) (disk : FileSystem)
    (runId kind : string) (name grep : option string) (n : Number) :
  zero_or_not_finite n ->
  handleGetArtifact node disk runId kind name grep (Some n)
  = handleGetArtifact node disk runId kind name grep None
  /\ (forall q_grep q_limit,
         Number_of node q_limit = n ->
         route_log node disk runId kind q_grep (Some q_limit)
         = route_log node disk runId kind q_grep None)
  /\ (forall fileName content,
         In (kind, fileName) [("console", "console.log"); ("network", "network.log")] ->
         fs.existsSync disk (path_resolve node "runs" runId) = true ->
         disk (path_join node (path_resolve node "runs" runId) fileName)
         = Some (File content) ->
         handleGetArtifact node disk runId kind name grep (Some n)
         = Returned (join_lines (select id grep None (split_lines content)))
         /\ forall q_limit,
              Number_of node q_limit = n ->
              route_log node disk runId kind grep (Some q_limit)
              = res_text (join_lines (select id grep None (split_lines content))))
  /\ (forall content parsed events,
         kind = "actions" ->
         fs.existsSync disk (path_resolve node "runs" runId) = true ->
         disk (path_join node (path_resolve node "runs" runId) "actions.json")
         = Some (File content) ->
         JSON_parse node content = Some parsed ->
         parsed = JArr events
         \/ (exists fields,
               parsed = JObj fields /\ get_field "actions" fields = Some (JArr events)) ->
         handleGetArtifact node disk runId kind name grep (Some n)
         = Returned (JSON_stringify node
                       (JArr (select (JSON_stringify node) grep None events)))
         /\ forall q_limit,
              Number_of node q_limit = n ->
              route_log node disk runId kind grep (Some q_limit)
              = res_json 200 (JArr (select (JSON_stringify node) grep None events))).
Proof.
  intros Hn. apply ignored_limit_test in Hn.
  assert (Hkept : forall A (text : A -> string) (entries : list A),
             kept_by_handler text grep (Some n) entries = select text grep None entries).
  { intros A text entries. unfold kept_by_handler. rewrite Hn. apply filter_step. }
  assert (Hquery : forall q_limit,
             Number_of node q_limit = n ->
             forall A (text : A -> string) (entries : list A),
               kept_by_handler text grep
                 (option_map (Number_of node) (nonempty (Some q_limit))) entries
               = select text grep None entries).
  { intros q_limit Hnum A text entries. unfold kept_by_handler.
    destruct q_limit as [|c q]; cbn [nonempty option_map]; [apply filter_step|].
    rewrite Hnum, Hn. apply filter_step. }
  split; [|split; [|split]].
  - unfold handleGetArtifact. rewrite Hn. reflexivity.
  - intros q_grep q_limit Hnum.
    unfold route_log, route_log_body.
    destruct q_limit as [|c q]; [reflexivity|].
    cbn [nonempty option_map]. rewrite Hnum, Hn. reflexivity.
  - intros fileName content Hk Hd Hf. split.
    + rewrite (handleGetArtifact_lines node disk runId kind fileName content
                 name grep (Some n) Hk Hd Hf).
      now rewrite Hkept.
    + intros q_limit Hnum.
      rewrite (route_log_lines node disk runId kind fileName content
                 grep (Some q_limit) Hk Hd Hf).
      now rewrite (Hquery q_limit Hnum).
  - intros content parsed events -> Hd Hf Hp Hitems.
    assert (Hi : items_of parsed = JArr events).
    { destruct Hitems as [-> | [fields [-> Hfield]]]; [reflexivity|].
      cbn [items_of]. now rewrite Hfield. }
    split.
    + rewrite (handleGetArtifact_items node disk runId content parsed events
                 name grep (Some n) Hd Hf Hp Hi).
      now rewrite Hkept.
    + intros q_limit Hnum.
      rewrite (route_log_items node disk runId content parsed events
                 grep (Some q_limit) Hd Hf Hp Hi).
      now rewrite (Hquery q_limit Hnum).
Qed.

Lemma zero_or_not_finite_limit_is_no_limit_witness :
  zero_or_not_finite (Finite 0)
  /\ handleGetArtifact Sample.runtime
       (Sample.disk_of Sample.runtime "console.log" Sample.console_text)
       "r1" "console" None None (Some (Finite 0))
     = Returned Sample.console_text
  /\ route_log Sample.runtime
       (Sample.disk_of Sample.runtime "actions.json" Sample.three_events_text)
       "r1" "actions" None (Some "0")
     = res_json 200 (JArr Sample.three_events).
Proof.
  split; [reflexivity|]. split.
  - exact (proj1 (proj1 (proj2 (proj2 (zero_or_not_finite_limit_is_no_limit
             Sample.runtime
             (Sample.disk_of Sample.runtime "console.log" Sample.console_text)
             "r1" "console" None None (Finite 0) (Qeq_refl 0))))
             "console.log" Sample.console_text (or_introl eq_refl) eq_refl eq_refl)).
  - apply (proj2 (proj2 (proj2 (zero_or_not_finite_limit_is_no_limit Sample.runtime
             (Sample.disk_of Sample.runtime "actions.json" Sample.three_events_text)
             "r1" "actions" None None (Finite 0) (Qeq_refl 0))))
             Sample.three_events_text (JArr Sample.three_events) Sample.three_events
             eq_refl eq_refl eq_refl eq_refl (or_introl eq_refl)).
    reflexivity.
Defined.

End Service.

(* ================================================================== *)
(** * Facts about the run engine *)
(* ================================================================== *)

Module EngineFacts.

Import Tools RunContract EngineViews.
Local Open Scope run_scope.

(** ** The combinators *)

Lemma bind_returned {A B} (m : M A) (k : A -> M B) (s : Run) (a : A) (s' : Run) :
  m s = (Returned a, s') -> bind m k s = k a s'.
Proof. intros H. unfold bind. now rewrite H. Qed.

Lemma bind_thrown {A B} (m : M A) (k : A -> M B) (s : Run) (e : Exn) (s' : Run) :
  m s = (Thrown e, s') -> bind m k s = (Thrown e, s').
Proof. intros H. unfold bind. now rewrite H. Qed.

Lemma appends_ret {A} (a : A) : appends (ret a).
Proof. intros s. exists []. simpl. now rewrite app_nil_r. Qed.

Lemma appends_throw {A} (e : Exn) : appends (@throw A e).
Proof. intros s. exists []. simpl. now rewrite app_nil_r. Qed.

Lemma appends_bind {A B} (m : M A) (k : A -> M B) :
  appends m -> (forall a, appends (k a)) -> appends (bind m k).
Proof.
  intros Hm Hk s. destruct (Hm s) as [d1 H1]. unfold bind.
  destruct (m s) as [[a|e] s1]; simpl in *.
  - destruct (Hk a s1) as [d2 H2]. exists (d1 ++ d2).
    now rewrite H2, H1, app_assoc.
  - now exists d1.
Qed.

Lemma appends_try_catch {A} (m : M A) (h : Exn -> M A) :
  appends m -> (forall e, appends (h e)) -> appends (try_catch m h).
Proof.
  intros Hm Hh s. destruct (Hm s) as [d1 H1]. unfold try_catch.
  destruct (m s) as [[a|e] s1]; simpl in *.
  - now exists d1.
  - destruct (Hh e s1) as [d2 H2]. exists (d1 ++ d2).
    now rewrite H2, H1, app_assoc.
Qed.

Lemma appends_try_finally {A} (m : M A) (f : M unit) :
  appends m -> appends f -> appends (try_finally m f).
Proof.
  intros Hm Hf s. destruct (Hm s) as [d1 H1]. unfold try_finally.
  destruct (m s) as [r s1]; simpl in *.
  destruct (Hf s1) as [d2 H2]. exists (d1 ++ d2).
  destruct (f s1) as [[u|e] s2]; simpl in *; now rewrite H2, H1, app_assoc.
Qed.

Lemma appends_same {A} (m : M A) :
  (forall s, actions (snd (m s)) = actions s) -> appends m.
Proof. intros H s. exists []. now rewrite H, app_nil_r. Qed.

Lemma keeps_ret {A} (I : Run -> Prop) (a : A) : keeps I (ret a).
Proof. intros s H. exact H. Qed.

Lemma keeps_throw {A} (I : Run -> Prop) (e : Exn) : keeps I (@throw A e).
Proof. intros s H. exact H. Qed.

Lemma keeps_bind {A B} (I : Run -> Prop) (m : M A) (k : A -> M B) :
  keeps I m -> (forall a, keeps I (k a)) -> keeps I (bind m k).
Proof.
  intros Hm Hk s H. specialize (Hm s H). unfold bind.
  destruct (m s) as [[a|e] s1]; simpl in *; [now apply Hk | exact Hm].
Qed.

Lemma keeps_try_catch {A} (I : Run -> Prop) (m : M A) (h : Exn -> M A) :
  keeps I m -> (forall e, keeps I (h e)) -> keeps I (try_catch m h).
Proof.
  intros Hm Hh s H. specialize (Hm s H). unfold try_catch.
  destruct (m s) as [[a|e] s1]; simpl in *; [exact Hm | now apply Hh].
Qed.

Lemma keeps_try_finally {A} (I : Run -> Prop) (m : M A) (f : M unit) :
  keeps I m -> keeps I f -> keeps I (try_finally m f).
Proof.
  intros Hm Hf s H. specialize (Hm s H). unfold try_finally.
  destruct (m s) as [r s1]; simpl in *. specialize (Hf s1 Hm).
  destruct (f s1) as [[u|e] s2]; exact Hf.
Qed.

Lemma keeps_modify (I : Run -> Prop) (f : Run -> Run) :
  (forall s, I s -> I (f s)) -> keeps I (modify f).
Proof. intros H s. apply H. Qed.

Lemma keeps_settle (I : Run -> Prop) (r : Settled) : keeps I (settle r).
Proof. destruct r; intros s H; exact H. Qed.

Lemma keeps_if {A} (I : Run -> Prop) (b : Run -> bool) (m n : M A) :
  keeps I m -> keeps I n -> keeps I (fun s => if b s then m s else n s).
Proof. intros Hm Hn s H. destruct (b s); [now apply Hm | now apply Hn]. Qed.


Lemma keeps_Date_now (I : Run -> Prop) (W : World) :
  (forall s, I s -> I (tick s)) -> keeps I (Date_now W).
Proof. intros H s. apply H. Qed.

Lemma keeps_capture (I : Run -> Prop) (W : World) (file : string) :
  (forall s, I s -> I (count_capture s)) ->
  (forall e s, I s -> I (add_effect e s)) ->
  keeps I (capture W file).
Proof.
  intros Hc He s H. unfold capture.
  destruct (page_screenshot W (captures s) file); simpl; auto.
Qed.

(** A property of the state that does not depend on what a primitive
    assigns is kept by it; the combinators pass it on. *)
Ltac keeps_unrelated :=
  repeat first
    [ apply keeps_ret
    | apply keeps_throw
    | apply keeps_settle
    | apply keeps_Date_now; intros; assumption
    | apply keeps_capture; intros; assumption
    | apply keeps_modify; intros; assumption
    | apply keeps_if
    | apply keeps_try_finally
    | apply keeps_try_catch; [|intros ?]
    | apply keeps_bind; [|intros ?] ].

Section Engine.

Variable node : NodeRuntime.
Variable W : World.
Variable dir : string.

Local Abbreviation helpers_screenshot := (helpers_screenshot node W dir).
Local Abbreviation helpers_step := (helpers_step node W dir).
Local Abbreviation step_prelude := (step_prelude node W dir).
Local Abbreviation exec := (exec node W dir).

(** ** One screenshot, one step *)

Lemma helpers_screenshot_actions (name : string) (s : Run) :
  actions (snd (helpers_screenshot name s))
  = actions s ++ [screenshot name (clock W (clock_reads s))].
Proof.
  unfold Tools.helpers_screenshot, bind, Date_now, modify, capture. simpl.
  destruct (page_screenshot W _ _); reflexivity.
Qed.

Lemma step_prelude_actions (name : string) (s : Run) :
  exists t0 t1,
    actions (snd (step_prelude name s))
    = actions s ++ [step_start name t0; screenshot ("before_" ++ name) t1].
Proof.
  exists (clock W (clock_reads s)), (clock W (S (clock_reads s))).
  unfold EngineViews.step_prelude, bind, Date_now, modify. simpl.
  rewrite helpers_screenshot_actions. simpl. now rewrite <- app_assoc.
Qed.

Lemma helpers_step_unfold (name : string) (fn : M unit) :
  helpers_step name fn
  = (step_prelude name ;;
     try_finally
       (try_catch
          (fn ;;
           t <- Date_now W ;;
           modify (push_action (step_end name t)))
          (fun e =>
             t <- Date_now W ;;
             modify (push_action (step_error name (String_of e) t)) ;;
             helpers_screenshot ("on_error_" ++ name) ;;
             modify (set_status FAIL) ;;
             throw e))
       (helpers_screenshot ("after_" ++ name))).
Proof. reflexivity. Qed.

(** The events of one invocation of [step], in the order in which they are
    recorded. *)
Lemma helpers_step_events (name : string) (fn : M unit) (s : Run) :
  match step_prelude name s with
  | (Thrown e, s1) => helpers_step name fn s = (Thrown e, s1)
  | (Returned _, s1) =>
      exists tail,
        actions (snd (helpers_step name fn s)) = actions (snd (fn s1)) ++ tail
        /\ match fst (fn s1) with
           | Returned _ =>
               exists t2 t3,
                 tail = [step_end name t2; screenshot ("after_" ++ name) t3]
           | Thrown e =>
               exists t2 t3 t4,
                 tail = [step_error name (String_of e) t2;
                         screenshot ("on_error_" ++ name) t3;
                         screenshot ("after_" ++ name) t4]
           end
  end.
Proof.
  rewrite helpers_step_unfold.
  destruct (step_prelude name s) as [[[]|e] s1] eqn:E1.
  2:{ now rewrite (bind_thrown _ _ _ _ _ E1). }
  rewrite (bind_returned _ _ _ _ _ E1).
  unfold try_finally, try_catch.
  destruct (fn s1) as [[[]|e] s2] eqn:E2; cbn [fst snd].
  - rewrite (bind_returned _ _ _ _ _ E2).
    unfold bind, Date_now, modify.
    rewrite (surjective_pairing (helpers_screenshot _ _)).
    destruct (fst _); cbn [snd]; rewrite helpers_screenshot_actions;
      cbn [actions push_action tick]; rewrite <- app_assoc;
      eexists; (split; [reflexivity | repeat eexists]).
  - rewrite (bind_thrown _ _ _ _ _ E2).
    unfold bind at 1 2. unfold Date_now at 1. unfold modify at 1.
    set (s3 := push_action _ (tick s2)).
    pose proof (helpers_screenshot_actions ("on_error_" ++ name) s3) as Ha.
    unfold bind at 1.
    destruct (helpers_screenshot ("on_error_" ++ name) s3) as [[[]|e'] s4];
      cbn [snd] in Ha; unfold bind, modify, throw.
    + set (s5 := set_status FAIL s4).
      pose proof (helpers_screenshot_actions ("after_" ++ name) s5) as Hb.
      destruct (helpers_screenshot ("after_" ++ name) s5) as [[[]|e''] s6];
        cbn [snd] in *; rewrite Hb; subst s5; cbn [actions set_status]; rewrite Ha;
        subst s3; cbn [actions push_action tick]; rewrite <- !app_assoc;
        eexists; (split; [reflexivity | repeat eexists]).
    + pose proof (helpers_screenshot_actions ("after_" ++ name) s4) as Hb.
      destruct (helpers_screenshot ("after_" ++ name) s4) as [[[]|e''] s6];
        cbn [snd] in *; rewrite Hb, Ha;
        subst s3; cbn [actions push_action tick]; rewrite <- !app_assoc;
        eexists; (split; [reflexivity | repeat eexists]).
Qed.

(** ** The recorded actions only grow *)

Lemma appends_Date_now : appends (Date_now W).
Proof. apply appends_same. reflexivity. Qed.

Lemma appends_push (a : Action) : appends (modify (push_action a)).
Proof. intros s. now exists [a]. Qed.

Lemma appends_helpers_screenshot (name : string) : appends (helpers_screenshot name).
Proof. intros s. eexists. apply helpers_screenshot_actions. Qed.

Lemma call_listener_actions (l : Listener) (ev : PageEvent) (s : Run) :
  actions (snd (call_listener node W dir l ev s)) = actions s.
Proof.
  destruct l, ev as [type text | method url response | message]; try reflexivity.
  - unfold call_listener, console_listener, bind, Date_now, modify. simpl.
    destruct (type =? "error")%string; reflexivity.
  - destruct response; reflexivity.
Qed.

Lemma dispatch_actions (ls : list (string * Listener)) (ev : PageEvent) (s : Run) :
  actions (snd (dispatch node W dir ls ev s)) = actions s.
Proof.
  revert s. induction ls as [|[name l] ls IH]; intros s; [reflexivity|].
  cbn [dispatch]. unfold bind.
  destruct (name =? event_name ev)%string.
  - pose proof (call_listener_actions l ev s) as H.
    destruct (call_listener node W dir l ev s) as [[u|e] s1]; simpl in *.
    + now rewrite IH.
    + exact H.
  - simpl. apply IH.
Qed.

Lemma appends_emit (ev : PageEvent) : appends (emit node W dir ev).
Proof. apply appends_same. intros s. unfold emit. now rewrite dispatch_actions. Qed.

Lemma appends_helpers_step (name : string) (fn : M unit) :
  appends fn -> appends (helpers_step name fn).
Proof.
  intros Hfn. unfold Tools.helpers_step.
  repeat first
    [ exact Hfn
    | apply appends_Date_now
    | apply appends_push
    | apply appends_helpers_screenshot
    | apply appends_throw
    | apply appends_same; reflexivity
    | apply appends_try_finally
    | apply appends_try_catch; [|intros ?]
    | apply appends_bind; [|intros ?] ].
Qed.

Lemma appends_exec (p : Script) : appends (exec p).
Proof.
  induction p as [ | e | ev k IHk | name k IHk | name body IHb k IHk
                   | body IHb handler IHh k IHk ]; cbn [Tools.exec].
  - apply appends_ret.
  - apply appends_throw.
  - apply appends_bind; [apply appends_emit | intros _; exact IHk].
  - apply appends_bind; [apply appends_helpers_screenshot | intros _; exact IHk].
  - apply appends_bind; [apply appends_helpers_step; exact IHb | intros _; exact IHk].
  - apply appends_bind; [|intros _; exact IHk].
    apply appends_try_catch; [exact IHb | exact IHh].
Qed.

(** ** The critical errors are the console errors *)










(** ** The status of the run and the recorded step errors *)

Lemma helpers_screenshot_status (name : string) (s : Run) :
  status (snd (helpers_screenshot name s)) = status s.
Proof.
  unfold Tools.helpers_screenshot, bind, Date_now, modify, capture. simpl.
  destruct (page_screenshot W _ _); reflexivity.
Qed.

Lemma helpers_screenshot_captures (name : string) (s : Run) :
  helpers_screenshot name s
  = match page_screenshot W (captures s) (path_join node dir (name ++ ".png")) with
    | Fulfilled => (Returned tt, snd (helpers_screenshot name s))
    | Rejected e => (Thrown e, snd (helpers_screenshot name s))
    end.
Proof.
  unfold Tools.helpers_screenshot, bind, Date_now, modify, capture. simpl.
  destruct (page_screenshot W _ _); reflexivity.
Qed.

Lemma step_prelude_status (name : string) (s : Run) :
  status (snd (step_prelude name s)) = status s.
Proof.
  unfold EngineViews.step_prelude, bind, Date_now, modify. simpl.
  now rewrite helpers_screenshot_status.
Qed.

(** The status after one invocation of [step]: [FAIL] when the body threw
    and the [on_error] capture succeeded, and otherwise what the body left. *)
Lemma helpers_step_status (name : string) (fn : M unit) (s : Run) :
  match step_prelude name s with
  | (Thrown _, s1) => True
  | (Returned _, s1) =>
      status (snd (helpers_step name fn s))
      = match fst (fn s1) with
        | Returned _ => status (snd (fn s1))
        | Thrown _ =>
            match page_screenshot W (captures (snd (fn s1)))
                    (path_join node dir (("on_error_" ++ name) ++ ".png")) with
            | Fulfilled => FAIL
            | Rejected _ => status (snd (fn s1))
            end
        end
  end.
Proof.
  rewrite helpers_step_unfold.
  destruct (step_prelude name s) as [[[]|e] s1] eqn:E1; [|exact I].
  rewrite (bind_returned _ _ _ _ _ E1).
  unfold try_finally, try_catch.
  destruct (fn s1) as [[[]|e] s2] eqn:E2; cbn [fst snd].
  - rewrite (bind_returned _ _ _ _ _ E2).
    unfold bind, Date_now, modify.
    rewrite (surjective_pairing (helpers_screenshot _ _)).
    destruct (fst _); cbn [snd]; now rewrite helpers_screenshot_status.
  - rewrite (bind_thrown _ _ _ _ _ E2).
    unfold bind at 1 2. unfold Date_now at 1. unfold modify at 1.
    set (s3 := push_action _ (tick s2)).
    pose proof (helpers_screenshot_status ("on_error_" ++ name) s3) as Ha.
    unfold bind at 1.
    rewrite (helpers_screenshot_captures ("on_error_" ++ name) s3).
    change (captures s3) with (captures s2).
    destruct (page_screenshot W (captures s2) _);
      unfold bind, modify, throw.
    + rewrite (surjective_pairing (helpers_screenshot _ (set_status _ _))).
      destruct (fst _); cbn [snd]; now rewrite helpers_screenshot_status.
    + rewrite (surjective_pairing (helpers_screenshot ("after_" ++ name) _)).
      destruct (fst _); cbn [snd]; rewrite helpers_screenshot_status, Ha; reflexivity.
Qed.

Lemma call_listener_status (l : Listener) (ev : PageEvent) (s : Run) :
  status (snd (call_listener node W dir l ev s)) = status s.
Proof.
  destruct l, ev as [type text | method url response | message]; try reflexivity.
  - unfold call_listener, console_listener, bind, Date_now, modify. simpl.
    destruct (type =? "error")%string; reflexivity.
  - destruct response; reflexivity.
Qed.

Lemma dispatch_status (ls : list (string * Listener)) (ev : PageEvent) (s : Run) :
  status (snd (dispatch node W dir ls ev s)) = status s.
Proof.
  revert s. induction ls as [|[name l] ls IH]; intros s; [reflexivity|].
  cbn [dispatch]. unfold bind.
  destruct (name =? event_name ev)%string.
  - pose proof (call_listener_status l ev s) as H.
    destruct (call_listener node W dir l ev s) as [[u|e] s1]; simpl in *.
    + now rewrite IH.
    + exact H.
  - simpl. apply IH.
Qed.

Lemma sound_same_log (s s' : Run) :
  actions s' = actions s -> status s' = status s ->
  failed_only_after_step_error s -> failed_only_after_step_error s'.
Proof. unfold failed_only_after_step_error. intros -> ->. auto. Qed.

Lemma complete_same_log (s s' : Run) :
  actions s' = actions s -> status s' = status s ->
  failed_after_step_error s -> failed_after_step_error s'.
Proof. unfold failed_after_step_error. intros -> ->. auto. Qed.

Lemma sound_helpers_screenshot (name : string) :
  keeps failed_only_after_step_error (helpers_screenshot name).
Proof.
  intros s H. unfold failed_only_after_step_error.
  rewrite helpers_screenshot_status, helpers_screenshot_actions, existsb_app.
  intros Hf. now rewrite (H Hf).
Qed.

Lemma complete_helpers_screenshot (name : string) :
  keeps failed_after_step_error (helpers_screenshot name).
Proof.
  intros s H. unfold failed_after_step_error.
  rewrite helpers_screenshot_status, helpers_screenshot_actions, existsb_app.
  cbn. rewrite !orb_false_r. exact H.
Qed.

Lemma sound_emit (ev : PageEvent) :
  keeps failed_only_after_step_error (emit node W dir ev).
Proof.
  intros s. apply sound_same_log; unfold emit.
  - now rewrite dispatch_actions.
  - now rewrite dispatch_status.
Qed.

Lemma complete_emit (ev : PageEvent) :
  keeps failed_after_step_error (emit node W dir ev).
Proof.
  intros s. apply complete_same_log; unfold emit.
  - now rewrite dispatch_actions.
  - now rewrite dispatch_status.
Qed.

Lemma sound_helpers_step (name : string) (fn : M unit) :
  keeps failed_only_after_step_error fn ->
  keeps failed_only_after_step_error (helpers_step name fn).
Proof.
  intros Hfn s Hs.
  pose proof (helpers_step_events name fn s) as He.
  pose proof (helpers_step_status name fn s) as Hst.
  destruct (step_prelude_actions name s) as [t0 [t1 Hp]].
  pose proof (step_prelude_status name s) as Hps.
  destruct (step_prelude name s) as [[[]|e] s1]; cbn [snd] in Hp, Hps.
  - assert (H1 : failed_only_after_step_error s1).
    { unfold failed_only_after_step_error. rewrite Hps, Hp, existsb_app.
      intros Hf. now rewrite (Hs Hf). }
    specialize (Hfn s1 H1). destruct He as [tail [Ha Ht]].
    unfold failed_only_after_step_error. rewrite Hst, Ha, existsb_app.
    destruct (fst (fn s1)).
    + intros Hf. now rewrite (Hfn Hf).
    + destruct Ht as [t2 [t3 [t4 ->]]]. intros _. cbn. apply orb_true_r.
  - rewrite He. cbn [snd].
    unfold failed_only_after_step_error. rewrite Hps, Hp, existsb_app.
    intros Hf. now rewrite (Hs Hf).
Qed.

Lemma complete_helpers_step (name : string) (fn : M unit) :
  always_captures W ->
  keeps failed_after_step_error fn ->
  keeps failed_after_step_error (helpers_step name fn).
Proof.
  intros HW Hfn s Hs.
  pose proof (helpers_step_events name fn s) as He.
  pose proof (helpers_step_status name fn s) as Hst.
  destruct (step_prelude_actions name s) as [t0 [t1 Hp]].
  pose proof (step_prelude_status name s) as Hps.
  destruct (step_prelude name s) as [[[]|e] s1]; cbn [snd] in Hp, Hps.
  - assert (H1 : failed_after_step_error s1).
    { unfold failed_after_step_error. rewrite Hps, Hp, existsb_app. cbn.
      rewrite orb_false_r. exact Hs. }
    specialize (Hfn s1 H1). destruct He as [tail [Ha Ht]].
    unfold failed_after_step_error. rewrite Hst, Ha, existsb_app.
    destruct (fst (fn s1)).
    + destruct Ht as [t2 [t3 ->]]. cbn. rewrite orb_false_r. exact Hfn.
    + now rewrite HW.
  - rewrite He. cbn [snd].
    unfold failed_after_step_error. rewrite Hps, Hp, existsb_app. cbn.
    rewrite orb_false_r. exact Hs.
Qed.

Lemma sound_exec (p : Script) : keeps failed_only_after_step_error (exec p).
Proof.
  induction p as [ | e | ev k IHk | name k IHk | name body IHb k IHk
                   | body IHb handler IHh k IHk ]; cbn [Tools.exec].
  - apply keeps_ret.
  - apply keeps_throw.
  - apply keeps_bind; [apply sound_emit | intros _; exact IHk].
  - apply keeps_bind; [apply sound_helpers_screenshot | intros _; exact IHk].
  - apply keeps_bind; [apply sound_helpers_step; exact IHb | intros _; exact IHk].
  - apply keeps_bind; [|intros _; exact IHk].
    apply keeps_try_catch; [exact IHb | exact IHh].
Qed.

Lemma complete_exec (p : Script) :
  always_captures W -> keeps failed_after_step_error (exec p).
Proof.
  intros HW.
  induction p as [ | e | ev k IHk | name k IHk | name body IHb k IHk
                   | body IHb handler IHh k IHk ]; cbn [Tools.exec].
  - apply keeps_ret.
  - apply keeps_throw.
  - apply keeps_bind; [apply complete_emit | intros _; exact IHk].
  - apply keeps_bind; [apply complete_helpers_screenshot | intros _; exact IHk].
  - apply keeps_bind; [apply complete_helpers_step; assumption | intros _; exact IHk].
  - apply keeps_bind; [|intros _; exact IHk].
    apply keeps_try_catch; [exact IHb | exact IHh].
Qed.

Lemma status_try_block (scriptPath : string) :
  failed_only_after_step_error (snd (try_block node W dir scriptPath initial))
  /\ (always_captures W ->
      failed_after_step_error (snd (try_block node W dir scriptPath initial))).
Proof.
  assert (H0 : forall s, status s = PASS -> actions s = [] ->
                 failed_only_after_step_error s /\ failed_after_step_error s).
  { intros s Hs Ha. unfold failed_only_after_step_error, failed_after_step_error.
    rewrite Hs, Ha. split; discriminate. }
  unfold try_block, page_on.
  cbv beta delta [bind settle modify ret throw].
  destruct (chromium_launch W);
    [|split; intros; now apply H0].
  destruct (browser_newContext W); [|split; intros; now apply H0].
  destruct (context_newPage W); [|split; intros; now apply H0].
  destruct (tracing_start W); [|split; intros; now apply H0].
  destruct (import W _) as [m|e]; [|split; intros; now apply H0].
  destruct (candidate m) as [[body|]|]; try (split; intros; now apply H0).
  destruct (page_goto W); [|split; intros; now apply H0].
  split; [apply sound_exec | intros HW; apply complete_exec; trivial];
    now apply H0.
Qed.

Lemma finally_block_log (s : Run) :
  actions (snd (finally_block node W dir s)) = actions s
  /\ status (snd (finally_block node W dir s)) = status s.
Proof.
  assert (H : keeps (fun s' => actions s' = actions s /\ status s' = status s)
                (finally_block node W dir)).
  { unfold finally_block, close_quietly. keeps_unrelated.
    intros s' Hs'. unfold try_catch, bind, modify, settle, ret, throw. cbn.
    destruct (writeFileSync W _ _); exact Hs'. }
  apply H. split; reflexivity.
Qed.

(** ** Finalization when stopping the trace succeeds *)

Lemma finally_block_effects (s : Run) :
  context s = false \/ tracing_stop W = Fulfilled ->
  exists outcome,
    finally_block node W dir s = (Returned tt, outcome)
    /\ actions outcome = actions s
    /\ status outcome = status s
    /\ effects outcome
       = effects s
         ++ (if context s then [trace_stopped (path_join node dir "trace.zip")] else [])
         ++ (if page s then [closed the_page] else [])
         ++ (if context s then [closed the_context] else [])
         ++ (if browser s then [closed the_browser] else [])
         ++ [writeFile (actionsPath node dir)
               (JSON_stringify_indent node (JArr (map json_of_action (actions s))) 2)].
Proof.
  intros H. unfold finally_block, close_quietly.
  unfold bind, try_catch, modify, settle, ret, throw.
  destruct (context s) eqn:Ec.
  - destruct H as [H|H]; [discriminate|]. rewrite H. cbn.
    destruct (page s); [destruct (close W the_page)|]; cbn; rewrite Ec;
      destruct (close W the_context); cbn;
      (destruct (browser s); [destruct (close W the_browser)|]); cbn;
      destruct (writeFileSync W _ _); cbn;
      eexists; repeat split; cbn; rewrite <- ?app_assoc; reflexivity.
  - cbn.
    destruct (page s); [destruct (close W the_page)|]; cbn; rewrite Ec; cbn;
      (destruct (browser s); [destruct (close W the_browser)|]); cbn;
      destruct (writeFileSync W _ _); cbn;
      eexists; repeat split; cbn; rewrite <- ?app_assoc; reflexivity.
Qed.

End Engine.

(** How the status of a returned run is decided. *)
Lemma status_of_returned_run (node : NodeRuntime) (W : World) (scriptPath : string)
    (r : RunResult.t) (s : Run) :
  runTest node W scriptPath = (Returned r, s) ->
  (engine_caught node W (RunResult.artifactsDir r) scriptPath = true ->
   RunResult.status r = FAIL)
  /\ (RunResult.status r = FAIL ->
      engine_caught node W (RunResult.artifactsDir r) scriptPath = true
      \/ existsb is_step_error (actions s) = true)
  /\ (always_captures W ->
      existsb is_step_error (actions s) = true -> RunResult.status r = FAIL).
Proof.
  unfold runTest.
  destruct (existsSync W scriptPath); cbn [negb]; [|discriminate].
  destruct (mkdirSync W _); [|discriminate].
  set (dir := path_resolve node "runs" (timestampId (new_Date W))).
  unfold run_body, try_finally, engine_caught.
  destruct (status_try_block node W dir scriptPath) as [Hsound Hcomplete].
  unfold try_catch at 1.
  destruct (try_block node W dir scriptPath initial) as [[u|e] s1] eqn:Et;
    cbn [fst snd] in *; unfold modify.
  - destruct (finally_block_log node W dir s1) as [Ha Hs].
    destruct (finally_block node W dir s1) as [[u'|e'] s2]; [|discriminate].
    cbn [snd] in *. intros H. injection H as Hr Hs2. rewrite <- Hr, <- Hs2.
    cbn [RunResult.status RunResult.artifactsDir]. fold dir. rewrite Et, Ha, Hs.
    cbn [fst]. split; [discriminate|]. split; [right; auto | exact Hcomplete].
  - destruct (finally_block_log node W dir (set_status FAIL s1)) as [Ha Hs].
    destruct (finally_block node W dir (set_status FAIL s1)) as [[u'|e'] s2];
      [|discriminate].
    cbn [snd] in *. intros H. injection H as Hr Hs2. rewrite <- Hr, <- Hs2.
    cbn [RunResult.status RunResult.artifactsDir]. fold dir. rewrite Et, Hs.
    cbn. auto.
Qed.

End EngineFacts.

(* ================================================================== *)
(** * Properties of the run engine *)
(* ================================================================== *)

Module Engine.

Import Tools RunContract EngineViews EngineFacts Scenario.

(** C1 (amended). One invocation of [step(name, body)] records, in this
    order: [step:start], the [before_<name>] screenshot, then, when that
    capture succeeded, the events of the body, followed on success of the
    body by [step:end] and the [after_<name>] screenshot, and on failure of
    the body by [step:error] and the [on_error_<name>] screenshot. A
    screenshot is recorded as its action event, which [helpers.screenshot]
    pushes just before the capture. *)
Theorem step_event_order (node : NodeRuntime) (W : World) (dir name : string)
    (body : Script) (s : Run) :
  exists t0 t1 rest,
    actions (snd (helpers_step node W dir name (exec node W dir body) s))
    = actions s ++ step_start name t0 :: screenshot ("before_" ++ name) t1 :: rest
    /\ match step_prelude node W dir name s with
       | (Thrown _, _) => True
       | (Returned _, s1) =>
           exists body_events,
             actions (snd (exec node W dir body s1)) = actions s1 ++ body_events
             /\ match fst (exec node W dir body s1) with
                | Returned _ =>
                    exists t2 t3,
                      rest = body_events
                             ++ [step_end name t2; screenshot ("after_" ++ name) t3]
                | Thrown e =>
                    exists t2 t3 more,
                      rest = body_events
                             ++ step_error name (String_of e) t2
                                :: screenshot ("on_error_" ++ name) t3 :: more
                end
       end.
Proof.
  destruct (step_prelude_actions node W dir name s) as [t0 [t1 Hp]].
  pose proof (helpers_step_events node W dir name (exec node W dir body) s) as He.
  destruct (step_prelude node W dir name s) as [[[]|e] s1]; cbn [snd] in Hp.
  - destruct He as [tail [Ha Ht]].
    destruct (appends_exec node W dir body s1) as [body_events Hb].
    exists t0, t1, (body_events ++ tail). split.
    + rewrite Ha, Hb, Hp, <- !app_assoc. reflexivity.
    + exists body_events. split; [exact Hb|].
      destruct (fst (exec node W dir body s1)).
      * destruct Ht as [t2 [t3 ->]]. now exists t2, t3.
      * destruct Ht as [t2 [t3 [t4 ->]]].
        now exists t2, t3, [screenshot ("after_" ++ name) t4].
  - exists t0, t1, []. rewrite He. cbn [snd]. split; [exact Hp | exact I].
Qed.

(** C1, as the specification states it, fails: a step around a body that
    succeeds records [step:start] before the [before] screenshot, and a
    step around a body that throws records the [after] screenshot too. *)
Lemma claimed_step_order_fails :
  let W := world Return all_captured Fulfilled in
  let dir := "/work/runs/r1" in
  let passed :=
    actions (snd (helpers_step Sample.runtime W dir "open"
                    (exec Sample.runtime W dir Return) initial)) in
  let failed :=
    actions (snd (helpers_step Sample.runtime W dir "open"
                    (exec Sample.runtime W dir (Throw (Error "boom"))) initial)) in
  passed = [step_start "open" 0; screenshot "before_open" 1;
            step_end "open" 2; screenshot "after_open" 3]
  /\ ~ claimed_step_events "open" [] (Returned tt) passed
  /\ failed = [step_start "open" 0; screenshot "before_open" 1;
               step_error "open" "Error: boom" 2; screenshot "on_error_open" 3;
               screenshot "after_open" 4]
  /\ ~ claimed_step_events "open" [] (Thrown (Error "boom")) failed.
Proof.
  cbv zeta. repeat split; try reflexivity;
    intros [t0 [t1 [t2 [t3 H]]]]; vm_compute in H; discriminate H.
Qed.

(** C2 (the code differs). A run returns [PASS] although the body of a
    step raised: the script goes on after the failed step, and the
    [on_error] capture is rejected, so that [helpers.step] leaves its
    [catch] before the assignment of [FAIL]. The engine catches nothing,
    and [step:error] is among the recorded actions. *)
Theorem pass_returned_after_step_error :
  let W := world tolerant_script (captured_until 1) Fulfilled in
  exists r s,
    runTest Sample.runtime W "login.spec.ts" = (Returned r, s)
    /\ RunResult.status r = PASS
    /\ actions s = [step_start "open" 0; screenshot "before_open" 1;
                    step_error "open" "Error: boom" 2; screenshot "on_error_open" 3;
                    screenshot "after_open" 4]
    /\ existsb is_step_error (actions s) = true
    /\ engine_caught Sample.runtime W (RunResult.artifactsDir r) "login.spec.ts" = false.
Proof.
  cbv zeta. eexists. eexists. split; [vm_compute; reflexivity|].
  repeat split.
Qed.

(** C3 (the code differs). When stopping the trace is rejected the
    [finally] block of [runTest] ends there: page, context and browser are
    held and none is closed, the actions are not written, and [runTest]
    throws. *)
Theorem finalization_ends_when_trace_stop_rejects :
  let W := world passing_script all_captured (Rejected (Error "trace.zip: EACCES")) in
  let outcome := runTest Sample.runtime W "login.spec.ts" in
  fst outcome = Thrown (Error "trace.zip: EACCES")
  /\ (page (snd outcome) = true /\ context (snd outcome) = true
      /\ browser (snd outcome) = true)
  /\ close_calls (effects (snd outcome)) = []
  /\ file_writes (effects (snd outcome)) = [].
Proof. cbv zeta. repeat split. Qed.

(** C4 (the code differs). When the [before] capture of a step is rejected
    the step has recorded [step:start] and records neither [step:end] nor
    [step:error]: the capture is awaited before the [try]. *)
Theorem step_left_open_when_before_capture_rejects :
  let W := world passing_script (captured_until 0) Fulfilled in
  let s := snd (runTest Sample.runtime W "login.spec.ts") in
  actions s = [step_start "open" 0; screenshot "before_open" 1]
  /\ filter (closes "open") (actions s) = []
  /\ ~ claimed_step_closing "open" (actions s).
Proof.
  cbv zeta. repeat split. intros [_ H]. vm_compute in H. discriminate H.
Qed.



End Engine.

(* ================================================================== *)
(** * More about the retrieval service *)
(* ================================================================== *)

Module ServiceMore.

Import Agent AgentRoutes Contract Views ServiceViews JSFacts AgentFacts.

(** ** Lines and their join *)

Lemma split_lines_cons (s : string) : exists h t, split_lines s = h :: t.
Proof.
  induction s as [|c s [h [t IH]]]; simpl; [now exists EmptyString, []|].
  destruct (Ascii.eqb c LF); [now exists EmptyString, (split_lines s)|].
  rewrite IH. now exists (String c h), t.
Qed.

Lemma concat_cons2 (sep x h : string) (t : list string) :
  String.concat sep (x :: h :: t) = (x ++ sep ++ String.concat sep (h :: t))%string.
Proof. reflexivity. Qed.

Lemma join_split (s : string) : join_lines (split_lines s) = s.
Proof.
  unfold join_lines. induction s as [|c s IH]; [reflexivity|].
  cbn [split_lines]. destruct (split_lines_cons s) as [h [t E]]. rewrite E in *.
  destruct (Ascii.eqb_spec c LF) as [->|Hc].
  - rewrite concat_cons2, IH. reflexivity.
  - destruct t as [|x t].
    + cbn in *. now rewrite IH.
    + rewrite concat_cons2 in *. rewrite <- IH. reflexivity.
Qed.

Lemma skipn_min {A} (k : nat) (l : list A) :
  skipn (Nat.min k (List.length l)) l = skipn k l.
Proof.
  destruct (Nat.le_gt_cases k (List.length l)) as [H|H].
  - now rewrite Nat.min_l.
  - rewrite Nat.min_r by lia. rewrite !skipn_all2; trivial; lia.
Qed.

Lemma present_reflects (files : list string) (f : string) :
  reflects (present files f) f files.
Proof.
  unfold reflects, present, Array_includes.
  destruct (existsb (String.eqb f) files) eqn:E.
  - left. split; [reflexivity|].
    apply existsb_exists in E as [x [Hin Hx]].
    apply String.eqb_eq in Hx. now subst x.
  - right. split; [reflexivity|]. intros Hin.
    assert (existsb (String.eqb f) files = true) as H.
    { apply existsb_exists. exists f. split; [exact Hin | apply String.eqb_refl]. }
    congruence.
Qed.

Lemma existsSync_dir (disk : FileSystem) (p : string) (entries : list string) :
  disk p = Some (Dir entries) -> fs.existsSync disk p = true.
Proof. intros H. unfold fs.existsSync. now rewrite H. Qed.

Lemma existsSync_none (disk : FileSystem) (p : string) :
  disk p = None -> fs.existsSync disk p = false.
Proof. intros H. unfold fs.existsSync. now rewrite H. Qed.

Lemma kept_by_handler_unlimited {A} (text : A -> string) (grep : option string)
    (limit : option Number) (entries : list A) :
  limit = None \/ (exists n, limit = Some n /\ zero_or_not_finite n) ->
  kept_by_handler text grep limit entries = select text grep None entries.
Proof.
  intros H. unfold kept_by_handler. rewrite filter_step.
  destruct H as [-> | [n [-> Hn]]]; [reflexivity|].
  now rewrite (ignored_limit_test n Hn).
Qed.

(** X1. The index lists what the directory holds: its screenshots are the
    entries that end in [.png], each as often as it is listed, in the order
    of the default sort, and each flag tells whether the directory has the
    log or the trace. Reading an index never fails on a directory. *)
Theorem index_lists_what_exists (node : NodeRuntime) (disk : FileSystem)
    (dir : string) (entries : list string) :
  fs.readdirSync disk dir = Returned entries ->
  exists index,
    buildArtifactIndex node disk dir = Returned index
    /\ artifactsDir index = dir
    /\ runId index = path_basename node dir
    /\ StronglySorted le (screenshots index)
    /\ Permutation (screenshots index) (filter (fun f => endsWith f ".png") entries)
    /\ (forall f, In f (screenshots index) <-> In f entries /\ endsWith f ".png" = true)
    /\ reflects (console (logs index)) "console.log" entries
    /\ reflects (network (logs index)) "network.log" entries
    /\ reflects (actions (logs index)) "actions.json" entries
    /\ reflects (trace index) "trace.zip" entries.
Proof.
  intros H. unfold buildArtifactIndex. rewrite H. cbn [JS.bind].
  eexists. split; [reflexivity|]. cbn.
  assert (P : Permutation (Array_sort (filter (fun f => endsWith f ".png") entries))
                (filter (fun f => endsWith f ".png") entries)).
  { symmetry. apply StringSort.Permuted_sort. }
  split; [reflexivity|]. split; [reflexivity|].
  split; [apply Array_sort_sorted|]. split; [exact P|].
  split; [|repeat split; apply present_reflects].
  intros f. split.
  - intros Hin. apply (Permutation_in _ P) in Hin. now apply filter_In in Hin.
  - intros [Hin He]. apply (Permutation_in _ (Permutation_sym P)).
    apply filter_In. now split.
Qed.

Lemma index_lists_what_exists_witness :
  fs.readdirSync sample_disk "/work/runs/r1"
  = Returned ["console.log"; "actions.json"; "trace.zip"; "b.png"; "a.png"]
  /\ exists index,
       buildArtifactIndex Sample.runtime sample_disk "/work/runs/r1" = Returned index
       /\ screenshots index = ["a.png"; "b.png"]
       /\ runId index = "r1"
       /\ network (logs index) = None.
Proof.
  split; [reflexivity|].
  destruct (index_lists_what_exists Sample.runtime sample_disk "/work/runs/r1"
              ["console.log"; "actions.json"; "trace.zip"; "b.png"; "a.png"] eq_refl)
    as [index [H _]].
  exists index. split; [exact H|].
  vm_compute in H. injection H as <-. repeat split.
Defined.

(** X2. Without a filter (or with the empty one) and without a limit (or
    with one that is zero or not finite) a console or network log comes
    back as it is on the disk, byte for byte: splitting at the line feeds
    and joining with line feeds gives the text back. *)
Theorem log_returned_verbatim (node : NodeRuntime) (disk : FileSystem)
    (runId kind fileName content : string) (name grep : option string)
    (limit : option Number) :
  In (kind, fileName) [("console", "console.log"); ("network", "network.log")] ->
  fs.existsSync disk (path_resolve node "runs" runId) = true ->
  disk (path_join node (path_resolve node "runs" runId) fileName) = Some (File content) ->
  nonempty grep = None ->
  limit = None \/ (exists n, limit = Some n /\ zero_or_not_finite n) ->
  handleGetArtifact node disk runId kind name grep limit = Returned content.
Proof.
  intros Hk Hd Hf Hg Hl.
  rewrite (handleGetArtifact_lines node disk runId kind fileName content
             name grep limit Hk Hd Hf).
  rewrite (kept_by_handler_unlimited id grep limit _ Hl).
  unfold select. destruct grep as [[|c g]|]; try discriminate Hg.
  - rewrite filter_all; [now rewrite join_split|].
    intros x. unfold matches. apply includes_empty.
  - now rewrite join_split.
Qed.

Lemma log_returned_verbatim_witness :
  sample_disk "/work/runs/r1/console.log" = Some (File Sample.console_text)
  /\ handleGetArtifact Sample.runtime sample_disk "r1" "console" None (Some "")
       (Some NaN)
     = Returned Sample.console_text.
Proof.
  split; [reflexivity|].
  apply (log_returned_verbatim Sample.runtime sample_disk "r1" "console" "console.log"
           Sample.console_text None (Some "") (Some NaN)).
  - left; reflexivity.
  - reflexivity.
  - reflexivity.
  - reflexivity.
  - right. exists NaN. split; [reflexivity | exact I].
Defined.

(** ** Limits that are not counts *)

Lemma slice_start_negative (k len : nat) :
  slice_start (neg (Finite (inject_Z (- Z.of_nat k)))) len = Nat.min k len.
Proof.
  unfold slice_start, neg, inject_Z, Qopp; simpl.
  rewrite Z.opp_involutive, Z.quot_1_r.
  destruct (Z.ltb_spec (Z.of_nat k) 0); lia.
Qed.

Lemma slice_start_fraction (q : Q) (len : nat) :
  proper_fraction q -> slice_start (neg (Finite q)) len = 0%nat.
Proof.
  intros [Hz Hlt]. unfold slice_start, neg, Qopp; simpl.
  assert (E : (- Qnum q ÷ Z.pos (Qden q) = 0)%Z).
  { apply Z.quot_small_iff; [discriminate | lia]. }
  rewrite E. simpl. lia.
Qed.

Lemma truthy_nonzero (q : Q) : (Qnum q <> 0)%Z -> truthy (Finite q) = true.
Proof.
  intros H. unfold truthy. destruct (Qeq_bool q 0) eqn:E; [|reflexivity].
  apply Qeq_bool_iff in E. unfold Qeq in E. simpl in E. lia.
Qed.

Lemma kept_by_handler_finite {A} (text : A -> string) (grep : option string)
    (q : Q) (entries : list A) :
  (Qnum q <> 0)%Z ->
  kept_by_handler text grep (Some (Finite q)) entries
  = Array_slice (neg (Finite q)) (select text grep None entries).
Proof.
  intros H. unfold kept_by_handler. rewrite filter_step.
  rewrite (truthy_nonzero q H). cbn [andb Number_isFinite].
  now rewrite (truthy_nonzero q H).
Qed.

(** X3. A limit that is not a positive whole number is not refused. A
    negative limit [-k] drops the [k] oldest entries that passed the filter
    and keeps all the later ones, and a limit strictly between -1 and 1
    (other than 0) keeps every entry. *)
Theorem limit_that_is_not_a_count (node : NodeRuntime) (disk : FileSystem)
    (runId kind fileName content : string) (name grep : option string) :
  In (kind, fileName) [("console", "console.log"); ("network", "network.log")] ->
  fs.existsSync disk (path_resolve node "runs" runId) = true ->
  disk (path_join node (path_resolve node "runs" runId) fileName) = Some (File content) ->
  (forall k, (0 < k)%nat ->
     handleGetArtifact node disk runId kind name grep
       (Some (Finite (inject_Z (- Z.of_nat k))))
     = Returned (join_lines (skipn k (select id grep None (split_lines content)))))
  /\ (forall q, proper_fraction q ->
        handleGetArtifact node disk runId kind name grep (Some (Finite q))
        = handleGetArtifact node disk runId kind name grep None).
Proof.
  intros Hk Hd Hf. split.
  - intros k Hpos.
    rewrite (handleGetArtifact_lines node disk runId kind fileName content
               name grep _ Hk Hd Hf).
    rewrite kept_by_handler_finite by (simpl; lia).
    unfold Array_slice. now rewrite slice_start_negative, skipn_min.
  - intros q Hq.
    rewrite !(handleGetArtifact_lines node disk runId kind fileName content
                name grep _ Hk Hd Hf).
    rewrite kept_by_handler_finite by apply Hq.
    unfold Array_slice. rewrite (slice_start_fraction q _ Hq).
    rewrite (kept_by_handler_unlimited id grep None) by now left.
    reflexivity.
Qed.

Lemma limit_that_is_not_a_count_witness :
  sample_disk "/work/runs/r1/console.log" = Some (File Sample.console_text)
  /\ handleGetArtifact Sample.runtime sample_disk "r1" "console" None None
       (Some (Finite (inject_Z (-1))))
     = Returned ("[ERROR] boom" ++ nl)%string.
Proof.
  split; [reflexivity|].
  apply (proj1 (limit_that_is_not_a_count Sample.runtime sample_disk "r1" "console"
                  "console.log" Sample.console_text None None
                  (or_introl eq_refl) eq_refl eq_refl) 1%nat).
  lia.
Defined.

(** ** Requests on a run directory that can be read *)

Lemma handleGetArtifact_no_log (node : NodeRuntime) (disk : FileSystem)
    (runId kind fileName : string) (name grep : option string) (limit : option Number) :
  log_file kind = Some fileName ->
  fs.existsSync disk (path_resolve node "runs" runId) = true ->
  fs.existsSync disk (path_join node (path_resolve node "runs" runId) fileName) = false ->
  handleGetArtifact node disk runId kind name grep limit
  = Returned (JSON_stringify node (error_object "log not found")).
Proof.
  intros Hk Hd Hf. unfold handleGetArtifact. rewrite (ensureRunDir_found _ _ _ Hd).
  unfold log_file in Hk. cbn [JS.bind].
  destruct (kind =? "console")%string eqn:E1.
  - apply String.eqb_eq in E1. subst kind. injection Hk as <-. cbn. now rewrite Hf.
  - destruct (kind =? "network")%string eqn:E2.
    + apply String.eqb_eq in E2. subst kind. injection Hk as <-. cbn. now rewrite Hf.
    + destruct (kind =? "actions")%string eqn:E3; [|discriminate].
      apply String.eqb_eq in E3. subst kind. injection Hk as <-. cbn. now rewrite Hf.
Qed.

(** X4. On a run directory that can be read (a directory whose logs, where
    they exist, are files, with an actions log that parses to an array) the
    tool handler answers every request, whatever the kind, the name, the
    filter and the limit are: it never throws. *)
Theorem handler_answers_on_readable_run (node : NodeRuntime) (disk : FileSystem)
    (runId kind : string) (name grep : option string) (limit : option Number) :
  readable_run node disk runId ->
  exists answer, handleGetArtifact node disk runId kind name grep limit = Returned answer.
Proof.
  intros [[entries Hdir] [Hlogs Hactions]].
  pose proof (existsSync_dir _ _ _ Hdir) as Hd.
  destruct (log_file kind) as [fileName|] eqn:Hk.
  - unfold log_file in Hk.
    destruct (kind =? "console")%string eqn:E1;
      [|destruct (kind =? "network")%string eqn:E2;
        [|destruct (kind =? "actions")%string eqn:E3; [|discriminate]]];
      injection Hk as <-.
    + apply String.eqb_eq in E1. subst kind.
      destruct (Hlogs "console.log") as [Hn | [content Hf]]; [now left | |].
      * eexists. apply (handleGetArtifact_no_log node disk runId "console" "console.log");
          trivial. now apply existsSync_none.
      * eexists. apply (handleGetArtifact_lines node disk runId "console" "console.log"
                          content); trivial. now left.
    + apply String.eqb_eq in E2. subst kind.
      destruct (Hlogs "network.log") as [Hn | [content Hf]]; [right; now left | |].
      * eexists. apply (handleGetArtifact_no_log node disk runId "network" "network.log");
          trivial. now apply existsSync_none.
      * eexists. apply (handleGetArtifact_lines node disk runId "network" "network.log"
                          content); trivial. right; now left.
    + apply String.eqb_eq in E3. subst kind.
      destruct Hactions as [Hn | [content [events [Hf Hp]]]].
      * eexists. apply (handleGetArtifact_no_log node disk runId "actions" "actions.json");
          trivial. now apply existsSync_none.
      * eexists. apply (handleGetArtifact_actions node disk runId content events);
          trivial.
  - unfold log_file in Hk. unfold handleGetArtifact.
    rewrite (ensureRunDir_found _ _ _ Hd). cbn [JS.bind].
    destruct (kind =? "console")%string; [discriminate|].
    destruct (kind =? "network")%string; [discriminate|].
    destruct (kind =? "actions")%string; [discriminate|].
    cbn [orb].
    destruct (kind =? "index")%string.
    { unfold buildArtifactIndex, fs.readdirSync. rewrite Hdir. cbn. now eexists. }
    destruct (kind =? "screenshot")%string.
    { destruct (nonempty name); [destruct (negb _)|]; now eexists. }
    destruct (kind =? "trace")%string; [destruct (negb _)|]; now eexists.
Qed.

Lemma handler_answers_on_readable_run_witness :
  readable_run Sample.runtime readable_disk "r1"
  /\ exists answer,
       handleGetArtifact Sample.runtime readable_disk "r1" "actions" None (Some "STEP")
         (Some (of_nat 5))
       = Returned answer.
Proof.
  assert (H : readable_run Sample.runtime readable_disk "r1").
  { split; [|split].
    - now eexists.
    - intros f [<- | [<- | []]]; [right; now eexists | now left].
    - right. exists Sample.three_events_text, Sample.three_events. now split. }
  split; [exact H|].
  exact (handler_answers_on_readable_run Sample.runtime readable_disk "r1" "actions"
           None (Some "STEP") (Some (of_nat 5)) H).
Defined.

(** X5. An actions log that does not parse is not answered with an error
    object by the tool handler: it throws the parser's error. The HTTP log
    route answers the same request with status 500 and the error. *)
Theorem malformed_actions_log (node : NodeRuntime) (disk : FileSystem)
    (runId content : string) (name grep q_grep q_limit : option string)
    (limit : option Number) :
  fs.existsSync disk (path_resolve node "runs" runId) = true ->
  disk (path_join node (path_resolve node "runs" runId) "actions.json")
  = Some (File content) ->
  JSON_parse node content = None ->
  handleGetArtifact node disk runId "actions" name grep limit
  = Thrown (Other "SyntaxError")
  /\ route_log node disk runId "actions" q_grep q_limit
     = res_json 500 (error_object "SyntaxError").
Proof.
  intros Hd Hf Hp. split.
  - unfold handleGetArtifact. rewrite (ensureRunDir_found _ _ _ Hd). cbn.
    rewrite (existsSync_file _ _ _ Hf), (readFileSync_file _ _ _ Hf). cbn.
    unfold parse. now rewrite Hp.
  - unfold route_log, route_log_body. rewrite (ensureRunDir_found _ _ _ Hd). cbn.
    rewrite (existsSync_file _ _ _ Hf), (readFileSync_file _ _ _ Hf). cbn.
    unfold parse. now rewrite Hp.
Qed.

Lemma malformed_actions_log_witness :
  JSON_parse Sample.runtime "not json" = None
  /\ handleGetArtifact Sample.runtime sample_disk "r1" "actions" None None None
     = Thrown (Other "SyntaxError").
Proof.
  split; [reflexivity|].
  apply (malformed_actions_log Sample.runtime sample_disk "r1" "not json"
           None None None None None); reflexivity.
Defined.

(** ** The two transports *)

(** X6. The HTTP log route and the tool handler select alike. On a log
    that exists, with the same filter and with the limit of the query
    read as a number, the route sends as text what the handler returns for
    a console or network log, sends as JSON the items whose rendering the
    handler returns for the actions log, and answers 500 with the error
    where the handler throws. *)
Theorem log_route_agrees_with_handler (node : NodeRuntime) (disk : FileSystem)
    (runId kind fileName content : string) (name grep q_limit : option string) :
  log_file kind = Some fileName ->
  fs.existsSync disk (path_resolve node "runs" runId) = true ->
  disk (path_join node (path_resolve node "runs" runId) fileName) = Some (File content) ->
  match handleGetArtifact node disk runId kind name grep
          (option_map (Number_of node) (nonempty q_limit)) with
  | Returned answer =>
      if (kind =? "actions")%string
      then exists items,
             answer = JSON_stringify node items
             /\ route_log node disk runId kind grep q_limit = res_json 200 items
      else route_log node disk runId kind grep q_limit = res_text answer
  | Thrown e =>
      route_log node disk runId kind grep q_limit
      = res_json 500 (error_object (String_of e))
  end.
Proof.
  intros Hk Hd Hf. unfold log_file in Hk.
  unfold handleGetArtifact, route_log, route_log_body.
  rewrite (ensureRunDir_found _ _ _ Hd). cbn [JS.bind].
  rewrite nonempty_toLowerCase.
  destruct (kind =? "console")%string eqn:E1;
    [|destruct (kind =? "network")%string eqn:E2;
      [|destruct (kind =? "actions")%string eqn:E3; [|discriminate]]];
    injection Hk as <-.
  - apply String.eqb_eq in E1. subst kind. cbn.
    rewrite (existsSync_file _ _ _ Hf), (readFileSync_file _ _ _ Hf). cbn.
    destruct (nonempty grep); destruct (nonempty q_limit) as [l|]; cbn;
      try reflexivity;
      destruct (truthy (Number_of node l)) eqn:Et;
      destruct (Number_isFinite (Number_of node l)); cbn; rewrite ?Et; reflexivity.
  - apply String.eqb_eq in E2. subst kind. cbn.
    rewrite (existsSync_file _ _ _ Hf), (readFileSync_file _ _ _ Hf). cbn.
    destruct (nonempty grep); destruct (nonempty q_limit) as [l|]; cbn;
      try reflexivity;
      destruct (truthy (Number_of node l)) eqn:Et;
      destruct (Number_isFinite (Number_of node l)); cbn; rewrite ?Et; reflexivity.
  - apply String.eqb_eq in E3. subst kind. cbn.
    rewrite (existsSync_file _ _ _ Hf), (readFileSync_file _ _ _ Hf). cbn.
    destruct (parse node content) as [parsed|e]; cbn; [|reflexivity].
    destruct (nonempty grep) as [g|]; cbn.
    + destruct (filter_items node (toLowerCase g) (items_of parsed)) as [items|e];
        cbn; [|reflexivity].
      destruct (nonempty q_limit) as [l|]; cbn; [|now eexists].
      destruct (truthy (Number_of node l)) eqn:Et;
        destruct (Number_isFinite (Number_of node l)); cbn; rewrite ?Et;
        try (now eexists).
      destruct (slice_items _ items); cbn; [now eexists | reflexivity].
    + destruct (nonempty q_limit) as [l|]; cbn; [|now eexists].
      destruct (truthy (Number_of node l)) eqn:Et;
        destruct (Number_isFinite (Number_of node l)); cbn; rewrite ?Et;
        try (now eexists).
      destruct (slice_items _ (items_of parsed)); cbn; [now eexists | reflexivity].
Qed.

Lemma log_route_agrees_with_handler_witness :
  sample_disk "/work/runs/r1/console.log" = Some (File Sample.console_text)
  /\ route_log Sample.runtime sample_disk "r1" "console" (Some "Error") (Some "1")
     = res_text "[ERROR] boom".
Proof.
  split; [reflexivity|].
  exact (log_route_agrees_with_handler Sample.runtime sample_disk "r1" "console"
           "console.log" Sample.console_text None (Some "Error") (Some "1")
           eq_refl eq_refl eq_refl).
Defined.

(** X7. A screenshot or the trace is referred to exactly when its file
    exists. For a run that exists and a name that is not empty, the handler
    returns the path of [<name>.png] and the HTTP route streams that file
    when the file exists, and both answer "screenshot not found" when it
    does not; the same holds for [trace.zip]. Without a name, or with the
    empty name, the handler asks for one whatever the disk holds. *)
Theorem reference_exactly_when_file_exists (node : NodeRuntime) (disk : FileSystem)
    (runId : string) (grep : option string) (limit : option Number) :
  fs.existsSync disk (path_resolve node "runs" runId) = true ->
  let dir := path_resolve node "runs" runId in
  (forall name,
      name <> EmptyString ->
      let file := path_join node dir (name ++ ".png") in
      if fs.existsSync disk file
      then handleGetArtifact node disk runId "screenshot" (Some name) grep limit
           = Returned (JSON_stringify node (JObj [("path", JStr file)]))
           /\ route_screenshot node disk runId name = streamed "png" file
      else handleGetArtifact node disk runId "screenshot" (Some name) grep limit
           = Returned (JSON_stringify node (error_object "screenshot not found"))
           /\ route_screenshot node disk runId name
              = answered (res_json 404 (error_object "screenshot not found")))
  /\ (let file := path_join node dir "trace.zip" in
      if fs.existsSync disk file
      then handleGetArtifact node disk runId "trace" None grep limit
           = Returned (JSON_stringify node (JObj [("path", JStr file)]))
           /\ route_trace node disk runId = streamed "application/zip" file
      else handleGetArtifact node disk runId "trace" None grep limit
           = Returned (JSON_stringify node (error_object "trace not found"))
           /\ route_trace node disk runId
              = answered (res_json 404 (error_object "trace not found")))
  /\ (forall name,
        nonempty name = None ->
        handleGetArtifact node disk runId "screenshot" name grep limit
        = Returned (JSON_stringify node (error_object "name is required for screenshot"))).
Proof.
  intros Hd dir. subst dir. cbv zeta.
  unfold handleGetArtifact, route_screenshot, route_trace.
  rewrite (ensureRunDir_found _ _ _ Hd). cbn. clear Hd.
  split; [|split].
  - intros name Hn. destruct name as [|c name]; [congruence|]. cbn.
    destruct (fs.existsSync disk _); cbn; split; reflexivity.
  - destruct (fs.existsSync disk _); cbn; split; reflexivity.
  - intros name Hn. now rewrite Hn.
Qed.

Lemma reference_exactly_when_file_exists_witness :
  fs.existsSync sample_disk (path_resolve Sample.runtime "runs" "r1") = true
  /\ handleGetArtifact Sample.runtime sample_disk "r1" "screenshot" (Some "a") None None
     = Returned (Sample.render (JObj [("path", JStr "/work/runs/r1/a.png")]))
  /\ route_screenshot Sample.runtime sample_disk "r1" "c"
     = answered (res_json 404 (error_object "screenshot not found")).
Proof.
  split; [reflexivity|].
  pose proof (reference_exactly_when_file_exists Sample.runtime sample_disk "r1"
                None None eq_refl) as H.
  cbv zeta in H. destruct H as [H _].
  split.
  - assert (Ha : "a" <> EmptyString) by discriminate.
    exact (proj1 (H "a" Ha)).
  - assert (Hc : "c" <> EmptyString) by discriminate.
    exact (proj2 (H "c" Hc)).
Defined.

End ServiceMore.

(* ================================================================== *)
(** * More about the run engine *)
(* ================================================================== *)

Module EngineMore.

Import Tools RunContract EngineViews EngineFacts RunViews Scenario MoreScenarios.
Local Open Scope run_scope.

(** ** When runTest returns *)

Lemma try_catch_returns (m : M unit) (h : Run -> Run) (s : Run) :
  fst (try_catch m (fun _ => modify h) s) = Returned tt.
Proof.
  unfold try_catch, modify. destruct (m s) as [[[]|e] s1]; reflexivity.
Qed.

Lemma finally_block_outcome (node : NodeRuntime) (W : World) (dir : string) (s : Run) :
  fst (finally_block node W dir s)
  = if context s
    then match tracing_stop W with
         | Fulfilled => Returned tt
         | Rejected e => Thrown e
         end
    else Returned tt.
Proof.
  destruct (context s) eqn:Ec.
  - destruct (tracing_stop W) eqn:Et.
    + destruct (finally_block_effects node W dir s) as [o [H _]]; [now right|].
      now rewrite H.
    + unfold finally_block. unfold bind at 1. rewrite Ec.
      unfold bind, modify, settle, throw. rewrite Et. reflexivity.
  - destruct (finally_block_effects node W dir s) as [o [H _]]; [now left|].
    now rewrite H.
Qed.

Lemma runTest_started (node : NodeRuntime) (W : World) (scriptPath : string) :
  existsSync W scriptPath = true ->
  mkdirSync W (path_resolve node "runs" (timestampId (new_Date W))) = Fulfilled ->
  runTest node W scriptPath
  = let runId := timestampId (new_Date W) in
    let dir := path_resolve node "runs" runId in
    match run_body node W dir scriptPath initial with
    | (Returned _, s) =>
        (Returned {| RunResult.status := status s; RunResult.artifactsDir := dir;
                     RunResult.runId := runId;
                     RunResult.criticalErrors := criticalErrors s |}, s)
    | (Thrown e, s) => (Thrown e, s)
    end.
Proof. intros He Hm. unfold runTest. now rewrite He, Hm. Qed.

Lemma run_body_outcome (node : NodeRuntime) (W : World) (dir scriptPath : string) :
  exists s1,
    s1 = snd (try_catch (try_block node W dir scriptPath)
                (fun _ => modify (set_status FAIL)) initial)
    /\ run_body node W dir scriptPath initial
       = (match fst (finally_block node W dir s1) with
          | Returned _ => Returned tt
          | Thrown e => Thrown e
          end, snd (finally_block node W dir s1)).
Proof.
  eexists. split; [reflexivity|].
  unfold run_body, try_finally.
  pose proof (try_catch_returns (try_block node W dir scriptPath) (set_status FAIL)
                initial) as Hr.
  destruct (try_catch _ _ initial) as [r s1]. cbn [fst snd] in *. subst r.
  destruct (finally_block node W dir s1) as [[[]|e] s2]; reflexivity.
Qed.

Lemma runTest_completes (node : NodeRuntime) (W : World) (scriptPath : string) :
  existsSync W scriptPath = true ->
  mkdirSync W (path_resolve node "runs" (timestampId (new_Date W))) = Fulfilled ->
  tracing_stop W = Fulfilled ->
  exists r s, runTest node W scriptPath = (Returned r, s).
Proof.
  intros He Hm Ht. rewrite (runTest_started node W scriptPath He Hm). cbv zeta.
  destruct (run_body_outcome node W
              (path_resolve node "runs" (timestampId (new_Date W))) scriptPath)
    as [s1 [_ ->]].
  rewrite finally_block_outcome, Ht.
  destruct (context s1); eexists; eexists; reflexivity.
Qed.

(** X8. Failures of the browser and of the script stay inside [runTest]:
    when the script file exists, the run directory can be made and stopping
    the trace is not rejected, [runTest] returns a result, with the run
    identifier of the start time and the directory of that identifier,
    whatever the browser, the script, the captures, the closes and the
    write of the actions do. *)
Theorem runTest_returns (node : NodeRuntime) (W : World) (scriptPath : string) :
  existsSync W scriptPath = true ->
  mkdirSync W (path_resolve node "runs" (timestampId (new_Date W))) = Fulfilled ->
  tracing_stop W = Fulfilled ->
  exists r s,
    runTest node W scriptPath = (Returned r, s)
    /\ RunResult.runId r = timestampId (new_Date W)
    /\ RunResult.artifactsDir r = path_resolve node "runs" (RunResult.runId r)
    /\ RunResult.status r = status s
    /\ RunResult.criticalErrors r = criticalErrors s.
Proof.
  intros He Hm Ht. rewrite (runTest_started node W scriptPath He Hm). cbv zeta.
  destruct (run_body_outcome node W
              (path_resolve node "runs" (timestampId (new_Date W))) scriptPath)
    as [s1 [_ ->]].
  rewrite finally_block_outcome, Ht.
  destruct (context s1); eexists; eexists; (split; [reflexivity|]); repeat split.
Qed.

Lemma runTest_returns_witness :
  tracing_stop (world failing_everything_script (captured_until 0) Fulfilled) = Fulfilled
  /\ exists r s,
       runTest Sample.runtime (world failing_everything_script (captured_until 0) Fulfilled)
         "login.spec.ts" = (Returned r, s)
       /\ RunResult.runId r = "2025-01-09-08-07-06".
Proof.
  split; [reflexivity|].
  destruct (runTest_returns Sample.runtime
              (world failing_everything_script (captured_until 0) Fulfilled)
              "login.spec.ts" eq_refl eq_refl eq_refl) as [r [s [H [Hid _]]]].
  exists r, s. split; [exact H | exact Hid].
Defined.

(** X9. What [runTest] throws is one of three things: the error that the
    script file was not found, the error of making the run directory, or
    the error of stopping the trace. Nothing that the browser or the script
    throws leaves [runTest]. *)
Theorem runTest_throws_only (node : NodeRuntime) (W : World) (scriptPath : string) :
  match fst (runTest node W scriptPath) with
  | Returned _ => True
  | Thrown e =>
      (existsSync W scriptPath = false
       /\ e = Error ("Script file not found: " ++ scriptPath))
      \/ mkdirSync W (path_resolve node "runs" (timestampId (new_Date W))) = Rejected e
      \/ tracing_stop W = Rejected e
  end.
Proof.
  unfold runTest. destruct (existsSync W scriptPath) eqn:He; cbn [negb fst].
  2:{ left. now split. }
  destruct (mkdirSync W _) eqn:Hm; cbn [fst]; [|right; now left].
  destruct (run_body_outcome node W
              (path_resolve node "runs" (timestampId (new_Date W))) scriptPath)
    as [s1 [_ ->]].
  rewrite finally_block_outcome.
  destruct (context s1); [|exact I].
  destruct (tracing_stop W); [exact I|]. cbn. right. now right.
Qed.

(** ** A browser that does not start, a script that does not load *)

Ltac run_to_the_end W :=
  unfold run_body, try_finally, try_catch, try_block, finally_block, close_quietly,
    page_on;
  cbv beta delta [bind settle modify ret throw try_catch];
  repeat match goal with
         | H : _ = _ |- _ => rewrite H
         end;
  cbn;
  repeat match goal with
         | |- context [close W ?r] => destruct (close W r); cbn
         | |- context [writeFileSync W ?p ?d] => destruct (writeFileSync W p d); cbn
         end.

(** X10. When the browser does not start, the finalization deals with what
    exists. After a failed launch nothing is closed, and after a failed
    [newContext] the browser is closed: in both cases the run returns
    [FAIL] with no action and no critical error, and the empty list of
    actions is written to [actions.json]. After a failed [newPage] the
    trace is stopped though it was never started: when that stop is
    fulfilled, the context and the browser are closed, the empty list is
    written and the run returns [FAIL] in the same way; when that stop is
    rejected, [runTest] throws the rejection, and nothing is closed and
    nothing is written. *)
Theorem browser_start_failure (node : NodeRuntime) (W : World) (scriptPath : string)
    (e : Exn) :
  existsSync W scriptPath = true ->
  mkdirSync W (path_resolve node "runs" (timestampId (new_Date W))) = Fulfilled ->
  let dir := path_resolve node "runs" (timestampId (new_Date W)) in
  let written := writeFile (actionsPath node dir) (persisted node []) in
  let failed_with (done : list Effect) :=
    exists r s,
      runTest node W scriptPath = (Returned r, s)
      /\ RunResult.status r = FAIL
      /\ RunResult.criticalErrors r = []
      /\ actions s = []
      /\ effects s = done in
  (chromium_launch W = Rejected e -> failed_with [written])
  /\ (chromium_launch W = Fulfilled -> browser_newContext W = Rejected e ->
      failed_with [closed the_browser; written])
  /\ (chromium_launch W = Fulfilled -> browser_newContext W = Fulfilled ->
      context_newPage W = Rejected e -> tracing_stop W = Fulfilled ->
      failed_with [trace_stopped (path_join node dir "trace.zip");
                   closed the_context; closed the_browser; written])
  /\ (forall e',
        chromium_launch W = Fulfilled -> browser_newContext W = Fulfilled ->
        context_newPage W = Rejected e -> tracing_stop W = Rejected e' ->
        exists s,
          runTest node W scriptPath = (Thrown e', s)
          /\ effects s = [trace_stopped (path_join node dir "trace.zip")]).
Proof.
  intros He Hm. cbv zeta. rewrite (runTest_started node W scriptPath He Hm). cbv zeta.
  clear He Hm.
  split; [|split; [|split]].
  - intros Hl. run_to_the_end W; do 2 eexists; repeat split.
  - intros Hl Hc. run_to_the_end W; do 2 eexists; repeat split.
  - intros Hl Hc Hp Ht. run_to_the_end W; do 2 eexists; repeat split.
  - intros e' Hl Hc Hp Ht. run_to_the_end W. eexists. split; reflexivity.
Qed.

Lemma browser_start_failure_witness :
  context_newPage (startup Fulfilled Fulfilled (Rejected (Error "no page")))
  = Rejected (Error "no page")
  /\ exists r s,
       runTest Sample.runtime (startup Fulfilled Fulfilled (Rejected (Error "no page")))
         "login.spec.ts" = (Returned r, s)
       /\ RunResult.status r = FAIL
       /\ close_calls (effects s) = [the_context; the_browser].
Proof.
  split; [reflexivity|].
  pose proof (browser_start_failure Sample.runtime
                (startup Fulfilled Fulfilled (Rejected (Error "no page")))
                "login.spec.ts" (Error "no page") eq_refl eq_refl) as H.
  cbv zeta in H. destruct H as [_ [_ [H _]]].
  destruct (H eq_refl eq_refl eq_refl eq_refl) as [r [s [Hr [Hs [_ [_ Hf]]]]]].
  exists r, s. split; [exact Hr|]. split; [exact Hs|]. now rewrite Hf.
Defined.

Lemma finally_block_frame (node : NodeRuntime) (W : World) (dir : string)
    (P : Run -> Prop) :
  (forall e s,
      match e with
      | trace_stopped _ | closed _ | writeFile _ _ => True
      | _ => False
      end -> P s -> P (add_effect e s)) ->
  keeps P (finally_block node W dir).
Proof.
  intros H. unfold finally_block, close_quietly.
  repeat first
    [ apply keeps_ret
    | apply keeps_settle
    | apply keeps_modify; intros; apply H; [exact I | assumption]
    | apply keeps_if
    | apply keeps_try_catch; [|intros ?]
    | apply keeps_bind; [|intros ?] ].
  intros s0 Hs0. unfold try_catch, bind, modify, settle, ret, throw. cbn.
  destruct (writeFileSync W _ _); cbn; (apply H; [exact I | exact Hs0]).
Qed.

Lemma finally_block_keeps (node : NodeRuntime) (W : World) (dir : string) (s : Run) :
  let s' := snd (finally_block node W dir s) in
  actions s' = actions s /\ status s' = status s /\ fired s' = fired s
  /\ criticalErrors s' = criticalErrors s
  /\ page s' = page s /\ context s' = context s /\ browser s' = browser s.
Proof.
  apply (finally_block_frame node W dir
           (fun s' => actions s' = actions s /\ status s' = status s
                      /\ fired s' = fired s /\ criticalErrors s' = criticalErrors s
                      /\ page s' = page s /\ context s' = context s
                      /\ browser s' = browser s)).
  - intros e s0 _ H. exact H.
  - repeat split.
Qed.

Lemma try_block_not_loaded (node : NodeRuntime) (W : World) (dir scriptPath : string) :
  loaded_runner node W scriptPath = None ->
  exists e s1,
    try_block node W dir scriptPath initial = (Thrown e, s1)
    /\ actions s1 = [] /\ fired s1 = [] /\ criticalErrors s1 = [].
Proof.
  unfold loaded_runner, try_block, page_on.
  cbv beta delta [bind settle modify ret throw].
  intros H.
  destruct (chromium_launch W); [|do 2 eexists; repeat split].
  destruct (browser_newContext W); [|do 2 eexists; repeat split].
  destruct (context_newPage W); [|do 2 eexists; repeat split].
  destruct (tracing_start W); [|do 2 eexists; repeat split].
  destruct (import W _) as [m|e]; [|do 2 eexists; repeat split].
  destruct (candidate m) as [[body|]|]; [discriminate | |];
    do 2 eexists; repeat split.
Qed.

(** X11. A script that does not load fails the run before anything of it
    runs: when the import throws, when the first of [default], [run] and
    [runner] whose value is neither [undefined] nor [null] is not a
    function, or when all three are [undefined] or [null], a run that
    returns has the status [FAIL], no recorded action, no fired event and
    no critical error. *)
Theorem script_that_does_not_load (node : NodeRuntime) (W : World) (scriptPath : string)
    (r : RunResult.t) (s : Run) :
  loaded_runner node W scriptPath = None ->
  runTest node W scriptPath = (Returned r, s) ->
  RunResult.status r = FAIL /\ RunResult.criticalErrors r = []
  /\ actions s = [] /\ fired s = [].
Proof.
  intros Hl. unfold runTest.
  destruct (existsSync W scriptPath); cbn [negb]; [|discriminate].
  destruct (mkdirSync W _); [|discriminate].
  set (dir := path_resolve node "runs" (timestampId (new_Date W))).
  unfold run_body, try_finally, try_catch at 1.
  destruct (try_block_not_loaded node W dir scriptPath Hl) as [e [s1 [Ht [Ha [Hf Hc]]]]].
  rewrite Ht. unfold modify.
  pose proof (finally_block_keeps node W dir (set_status FAIL s1)) as Hk.
  cbv zeta in Hk.
  destruct (finally_block node W dir (set_status FAIL s1)) as [[[]|e'] s2];
    [|discriminate].
  cbn [snd] in Hk. destruct Hk as [Ha' [Hs' [Hf' [Hc' _]]]].
  intros H. injection H as <- <-. cbn.
  rewrite Hs', Hc', Ha', Hf'. cbn. now rewrite Ha, Hf, Hc.
Qed.

Lemma script_that_does_not_load_witness :
  loaded_runner Sample.runtime (loading null_default) "login.spec.ts"
  = Some passing_script
  /\ loaded_runner Sample.runtime (loading shadowed) "login.spec.ts" = None
  /\ exists r s,
       runTest Sample.runtime (loading shadowed) "login.spec.ts" = (Returned r, s)
       /\ RunResult.status r = FAIL /\ actions s = [].
Proof.
  split; [reflexivity|]. split; [reflexivity|].
  destruct (runTest_completes Sample.runtime (loading shadowed) "login.spec.ts"
              eq_refl eq_refl eq_refl) as [r [s H]].
  exists r, s. split; [exact H|].
  destruct (script_that_does_not_load Sample.runtime (loading shadowed) "login.spec.ts"
              r s eq_refl H) as [Hs [_ [Ha _]]].
  now split.
Defined.

(** ** The finalization of a run that returns *)


Section Unfinalized.

Variable node : NodeRuntime.
Variable W : World.
Variable dir : string.









End Unfinalized.



(** ** Steps are nested *)

Lemma nested_app (strict : bool) (l1 l2 : list Action) :
  nested strict l1 -> nested strict l2 -> nested strict (l1 ++ l2).
Proof.
  intros H1 H2. induction H1 as [ | n t rest H IH | name t inner closing rest Hi IHi Hc Hr IHr
                                | name t rest Hs Hr IHr ]; cbn.
  - exact H2.
  - now apply nested_screenshot.
  - rewrite <- app_assoc. cbn. now apply nested_step.
  - now apply nested_open.
Qed.

Lemma nests_same {A} (strict : bool) (m : M A) :
  (forall s, actions (snd (m s)) = actions s) -> nests strict m.
Proof. intros H s. exists []. rewrite H, app_nil_r. split; [reflexivity | constructor]. Qed.

Lemma nests_bind {A B} (strict : bool) (m : M A) (k : A -> M B) :
  nests strict m -> (forall a, nests strict (k a)) -> nests strict (bind m k).
Proof.
  intros Hm Hk s. destruct (Hm s) as [d1 [H1 N1]]. unfold bind.
  destruct (m s) as [[a|e] s1]; cbn [snd] in *.
  - destruct (Hk a s1) as [d2 [H2 N2]]. exists (d1 ++ d2).
    rewrite H2, H1, app_assoc. split; [reflexivity | now apply nested_app].
  - now exists d1.
Qed.

Lemma nests_try_catch {A} (strict : bool) (m : M A) (h : Exn -> M A) :
  nests strict m -> (forall e, nests strict (h e)) -> nests strict (try_catch m h).
Proof.
  intros Hm Hh s. destruct (Hm s) as [d1 [H1 N1]]. unfold try_catch.
  destruct (m s) as [[a|e] s1]; cbn [snd] in *.
  - now exists d1.
  - destruct (Hh e s1) as [d2 [H2 N2]]. exists (d1 ++ d2).
    rewrite H2, H1, app_assoc. split; [reflexivity | now apply nested_app].
Qed.

Section Nesting.

Variable node : NodeRuntime.
Variable W : World.
Variable dir : string.
Variable strict : bool.
Hypothesis captures_when_strict : strict = true -> always_captures W.

Lemma nests_helpers_screenshot (name : string) :
  nests strict (helpers_screenshot node W dir name).
Proof.
  intros s. eexists. split; [apply helpers_screenshot_actions|].
  apply nested_screenshot, nested_nil.
Qed.

Lemma step_prelude_returns (name : string) (s : Run) :
  always_captures W -> fst (step_prelude node W dir name s) = Returned tt.
Proof.
  intros HW. unfold step_prelude, bind, Date_now, modify. cbv beta iota.
  rewrite helpers_screenshot_captures, HW. reflexivity.
Qed.

Lemma closes_closing (name : string) (outcome : Completion unit) (t : Z) :
  closes name match outcome with
              | Returned _ => step_end name t
              | Thrown e => step_error name (String_of e) t
              end = true.
Proof. destruct outcome; cbn; apply String.eqb_refl. Qed.

Lemma nests_helpers_step (name : string) (fn : M unit) :
  nests strict fn -> nests strict (helpers_step node W dir name fn).
Proof.
  intros Hfn s.
  pose proof (helpers_step_events node W dir name fn s) as He.
  destruct (step_prelude_actions node W dir name s) as [t0 [t1 Hp]].
  pose proof (step_prelude_returns name s) as Hr.
  destruct (step_prelude node W dir name s) as [[[]|e] s1]; cbn [fst snd] in *.
  - destruct He as [tail [Ha Ht]]. destruct (Hfn s1) as [d [Hd Nd]].
    exists (step_start name t0 :: (screenshot ("before_" ++ name) t1 :: d) ++ tail).
    split.
    + rewrite Ha, Hd, Hp, <- !app_assoc. reflexivity.
    + destruct (fst (fn s1)).
      * destruct Ht as [t2 [t3 ->]].
        apply nested_step; [now apply nested_screenshot | cbn; apply String.eqb_refl |].
        apply nested_screenshot, nested_nil.
      * destruct Ht as [t2 [t3 [t4 ->]]].
        apply nested_step; [now apply nested_screenshot | cbn; apply String.eqb_refl |].
        apply nested_screenshot, nested_screenshot, nested_nil.
  - rewrite He. cbn [snd]. eexists. split; [exact Hp|].
    destruct strict eqn:Es.
    + specialize (Hr (captures_when_strict eq_refl)). discriminate Hr.
    + apply nested_open; [reflexivity|]. apply nested_screenshot, nested_nil.
Qed.

Lemma nests_exec (p : Script) : nests strict (exec node W dir p).
Proof.
  induction p as [ | e | ev k IHk | name k IHk | name body IHb k IHk
                   | body IHb handler IHh k IHk ]; cbn [exec].
  - apply nests_same. reflexivity.
  - apply nests_same. reflexivity.
  - apply nests_bind; [|intros _; exact IHk].
    apply nests_same. intros s. unfold emit. now rewrite dispatch_actions.
  - apply nests_bind; [apply nests_helpers_screenshot | intros _; exact IHk].
  - apply nests_bind; [apply nests_helpers_step; exact IHb | intros _; exact IHk].
  - apply nests_bind; [|intros _; exact IHk].
    apply nests_try_catch; [exact IHb | exact IHh].
Qed.

Lemma nested_try_block (scriptPath : string) :
  nested strict (actions (snd (try_block node W dir scriptPath initial))).
Proof.
  unfold try_block, page_on.
  cbv beta delta [bind settle modify ret throw].
  destruct (chromium_launch W); [|constructor].
  destruct (browser_newContext W); [|constructor].
  destruct (context_newPage W); [|constructor].
  destruct (tracing_start W); [|constructor].
  destruct (import W _) as [m|e]; [|constructor].
  destruct (candidate m) as [[body|]|]; try constructor.
  destruct (page_goto W); [|constructor].
  match goal with |- context [exec node W dir body ?s0] =>
    destruct (nests_exec body s0) as [d [Hd Nd]] end.
  rewrite Hd. exact Nd.
Qed.

End Nesting.

Lemma nested_runTest (node : NodeRuntime) (W : World) (strict : bool)
    (scriptPath : string) :
  (strict = true -> always_captures W) ->
  nested strict (actions (snd (runTest node W scriptPath))).
Proof.
  intros HW. unfold runTest.
  destruct (existsSync W scriptPath); cbn [negb]; [|constructor].
  destruct (mkdirSync W _); [|constructor].
  set (d := path_resolve node "runs" (timestampId (new_Date W))).
  assert (H : nested strict (actions (snd (run_body node W d scriptPath initial)))).
  { destruct (run_body_outcome node W d scriptPath) as [s1 [Hs1 ->]]. cbn [snd].
    destruct (finally_block_keeps node W d s1) as [-> _]. subst s1.
    pose proof (nested_try_block node W d strict HW scriptPath) as Ht.
    unfold try_catch, modify.
    destruct (try_block node W d scriptPath initial) as [[[]|e] s0]; exact Ht. }
  destruct (run_body node W d scriptPath initial) as [[[]|e] s]; exact H.
Qed.


(** X13. In the run of a script that calls the helpers one at a time, each
    call awaited before the script does anything else (the scripts that
    [Script] describes), the steps are nested in the recorded actions,
    whatever such a script does and whatever fails: every [step:end] and
    [step:error] has the [step:start] of its name before it, what lies
    between the two is again such a sequence, and two steps never cross.
    A step may stay open, which happens when its [before] capture is
    rejected. A script that has two steps under way at once (through
    [Promise.all], or through a call that is not awaited) can record steps
    that cross; the statement is not about such scripts. *)
Theorem actions_are_nested (node : NodeRuntime) (W : World) (scriptPath : string) :
  (forall (dir : string) (p : Script), nests false (exec node W dir p))
  /\ nested false (actions (snd (runTest node W scriptPath))).
Proof.
  split.
  - intros dir p. apply nests_exec. discriminate.
  - apply nested_runTest. discriminate.
Qed.



(** ** The screenshots on the disk *)

Lemma captured_add_effect (node : NodeRuntime) (dir : string) (e : Effect) (s : Run) :
  match e with
  | png _ => False
  | _ => True
  end ->
  captured_as_recorded node dir s -> captured_as_recorded node dir (add_effect e s).
Proof.
  unfold captured_as_recorded, pngs. intros He H. cbn [effects actions add_effect].
  rewrite flat_map_app, H. destruct e; try contradiction; cbn; now rewrite app_nil_r.
Qed.

Lemma captured_push (node : NodeRuntime) (dir : string) (a : Action) (s : Run) :
  match a with
  | screenshot _ _ => False
  | _ => True
  end ->
  captured_as_recorded node dir s -> captured_as_recorded node dir (push_action a s).
Proof.
  unfold captured_as_recorded, shot_names. intros Ha H. cbn [effects actions push_action].
  rewrite flat_map_app, H. destruct a; try contradiction; cbn; now rewrite app_nil_r.
Qed.

Section Captured.

Variable node : NodeRuntime.
Variable W : World.
Variable dir : string.
Hypothesis no_rejection : always_captures W.

Lemma captured_helpers_screenshot (name : string) :
  keeps (captured_as_recorded node dir) (helpers_screenshot node W dir name).
Proof.
  intros s H. unfold helpers_screenshot, bind, Date_now, modify, capture.
  cbv beta iota. cbn [captures push_action tick]. rewrite no_rejection. cbn [snd].
  unfold captured_as_recorded, pngs, shot_names in *. cbn.
  rewrite !flat_map_app, H, map_app. reflexivity.
Qed.

Lemma captured_call_listener (l : Listener) (ev : PageEvent) :
  keeps (captured_as_recorded node dir) (call_listener node W dir l ev).
Proof.
  destruct l, ev as [type text | method url response | message]; try apply keeps_ret.
  - unfold call_listener, console_listener.
    apply keeps_bind; [keeps_unrelated | intros t].
    apply keeps_bind; [|intros _].
    + apply keeps_modify. intros s. now apply captured_add_effect.
    + destruct (type =? "error")%string; keeps_unrelated.
  - unfold call_listener, requestfinished_listener.
    destruct response; try apply keeps_ret;
      (apply keeps_bind; [keeps_unrelated | intros t]);
      apply keeps_modify; intros s; now apply captured_add_effect.
Qed.

Lemma captured_dispatch (ls : list (string * Listener)) (ev : PageEvent) :
  keeps (captured_as_recorded node dir) (dispatch node W dir ls ev).
Proof.
  induction ls as [|[name l] ls IH]; cbn [dispatch]; [apply keeps_ret|].
  apply keeps_bind; [|intros _; exact IH].
  destruct (name =? event_name ev)%string;
    [apply captured_call_listener | apply keeps_ret].
Qed.

Lemma captured_helpers_step (name : string) (fn : M unit) :
  keeps (captured_as_recorded node dir) fn ->
  keeps (captured_as_recorded node dir) (helpers_step node W dir name fn).
Proof.
  intros Hfn. unfold helpers_step.
  repeat first
    [ exact Hfn
    | apply captured_helpers_screenshot
    | apply keeps_throw
    | apply keeps_Date_now; intros; assumption
    | apply keeps_modify; intros; apply captured_push; [exact I | assumption]
    | apply keeps_modify; intros; assumption
    | apply keeps_try_finally
    | apply keeps_try_catch; [|intros ?]
    | apply keeps_bind; [|intros ?] ].
Qed.

Lemma captured_exec (p : Script) :
  keeps (captured_as_recorded node dir) (exec node W dir p).
Proof.
  induction p as [ | e | ev k IHk | name k IHk | name body IHb k IHk
                   | body IHb handler IHh k IHk ]; cbn [exec].
  - apply keeps_ret.
  - apply keeps_throw.
  - apply keeps_bind; [|intros _; exact IHk].
    intros s H. unfold emit. apply captured_dispatch. exact H.
  - apply keeps_bind; [apply captured_helpers_screenshot | intros _; exact IHk].
  - apply keeps_bind; [apply captured_helpers_step; exact IHb | intros _; exact IHk].
  - apply keeps_bind; [|intros _; exact IHk].
    apply keeps_try_catch; [exact IHb | exact IHh].
Qed.

Lemma captured_try_block (scriptPath : string) :
  captured_as_recorded node dir (snd (try_block node W dir scriptPath initial)).
Proof.
  assert (H0 : captured_as_recorded node dir initial) by reflexivity.
  unfold try_block, page_on.
  cbv beta delta [bind settle modify ret throw].
  destruct (chromium_launch W); [|exact H0].
  destruct (browser_newContext W); [|exact H0].
  destruct (context_newPage W); [|exact H0].
  destruct (tracing_start W); [|exact H0].
  destruct (import W _) as [m|e]; [|exact H0].
  destruct (candidate m) as [[body|]|]; try exact H0.
  destruct (page_goto W); [|exact H0].
  apply captured_exec. exact H0.
Qed.

End Captured.

(** X15. When no capture is rejected the screenshots on the disk are those
    of the actions log: the files that the run captured are, one for one
    and in the same order, the files [<name>.png] of the run directory for
    the names of the recorded screenshot actions, those of the steps
    included. *)
Theorem screenshots_are_those_recorded (node : NodeRuntime) (W : World)
    (scriptPath : string) :
  always_captures W ->
  let dir := path_resolve node "runs" (timestampId (new_Date W)) in
  let s := snd (runTest node W scriptPath) in
  pngs (effects s) = map (fun n => path_join node dir (n ++ ".png")) (shot_names (actions s)).
Proof.
  intros HW. cbv zeta. fold (captured_as_recorded node
    (path_resolve node "runs" (timestampId (new_Date W)))
    (snd (runTest node W scriptPath))).
  unfold runTest.
  destruct (existsSync W scriptPath); cbn [negb]; [|reflexivity].
  destruct (mkdirSync W _); [|reflexivity].
  set (d := path_resolve node "runs" (timestampId (new_Date W))).
  assert (H : captured_as_recorded node d (snd (run_body node W d scriptPath initial))).
  { destruct (run_body_outcome node W d scriptPath) as [s1 [Hs1 ->]]. cbn [snd].
    apply (finally_block_frame node W d (captured_as_recorded node d)).
    - intros e s0 He. apply captured_add_effect. destruct e; try contradiction; exact I.
    - subst s1. pose proof (captured_try_block node W d HW scriptPath) as Ht.
      unfold try_catch, modify.
      destruct (try_block node W d scriptPath initial) as [[[]|e] s0]; exact Ht. }
  destruct (run_body node W d scriptPath initial) as [[[]|e] s]; exact H.
Qed.

Lemma screenshots_are_those_recorded_witness :
  always_captures (world nested_script all_captured Fulfilled)
  /\ pngs (effects (snd (runTest Sample.runtime
                           (world nested_script all_captured Fulfilled) "login.spec.ts")))
     = ["/work/runs/2025-01-09-08-07-06/before_outer.png";
        "/work/runs/2025-01-09-08-07-06/before_inner.png";
        "/work/runs/2025-01-09-08-07-06/after_inner.png";
        "/work/runs/2025-01-09-08-07-06/detail.png";
        "/work/runs/2025-01-09-08-07-06/after_outer.png"].
Proof.
  assert (H : always_captures (world nested_script all_captured Fulfilled))
    by (intros n f; reflexivity).
  split; [exact H|].
  rewrite (screenshots_are_those_recorded Sample.runtime
             (world nested_script all_captured Fulfilled) "login.spec.ts" H).
  reflexivity.
Defined.

(** ** A failed step *)




(** ** The console log *)

Lemma appended_app (path : string) (l1 l2 : list Effect) :
  appended path (l1 ++ l2) = appended path l1 ++ appended path l2.
Proof. apply flat_map_app. Qed.

Lemma console_messages_app (l1 l2 : list PageEvent) :
  console_messages (l1 ++ l2) = console_messages l1 ++ console_messages l2.
Proof. apply flat_map_app. Qed.

Lemma logged_add_effect (node : NodeRuntime) (W : World) (dir : string) (e : Effect)
    (s : Run) :
  match e with
  | appendFile p _ => p <> consoleLogPath node dir
  | _ => True
  end ->
  logged node W dir s -> logged node W dir (add_effect e s).
Proof.
  unfold logged. intros He H. cbn [effects fired add_effect].
  rewrite appended_app.
  destruct e as [p data| | | |]; cbn [appended flat_map app]; rewrite ?app_nil_r;
    try exact H.
  apply String.eqb_neq in He. rewrite He. cbn [app]. rewrite app_nil_r. exact H.
Qed.

Lemma logged_silent (node : NodeRuntime) (W : World) (dir : string) (ev : PageEvent)
    (s : Run) :
  match ev with
  | console _ _ => False
  | _ => True
  end ->
  logged node W dir s -> logged node W dir (record_fired ev s).
Proof.
  unfold logged. intros He H. cbn [effects fired record_fired].
  rewrite console_messages_app.
  destruct ev; try contradiction; cbn [console_messages flat_map app];
    rewrite app_nil_r; exact H.
Qed.

Section Logged.

Variable node : NodeRuntime.
Variable W : World.
Variable dir : string.
Hypothesis two_files : consoleLogPath node dir <> networkLogPath node dir.

Local Abbreviation observed :=
  (fun s => listeners s = attached /\ logged node W dir s).

Lemma observed_helpers_screenshot (name : string) :
  keeps observed (helpers_screenshot node W dir name).
Proof.
  intros s H. unfold helpers_screenshot, bind, Date_now, modify, capture.
  cbv beta iota. cbn [captures push_action tick].
  destruct (page_screenshot W _ _); cbn [snd]; [|exact H].
  destruct H as [Hl H]. split; [exact Hl|].
  apply (logged_add_effect node W dir (png _) _ I). exact H.
Qed.

Lemma observed_helpers_step (name : string) (fn : M unit) :
  keeps observed fn -> keeps observed (helpers_step node W dir name fn).
Proof.
  intros Hfn. unfold helpers_step.
  repeat first
    [ exact Hfn
    | apply observed_helpers_screenshot
    | apply keeps_throw
    | apply keeps_Date_now; intros; assumption
    | apply keeps_modify; intros; assumption
    | apply keeps_try_finally
    | apply keeps_try_catch; [|intros ?]
    | apply keeps_bind; [|intros ?] ].
Qed.

Lemma observed_emit (ev : PageEvent) : keeps observed (emit node W dir ev).
Proof.
  intros s [Hl H]. unfold emit. rewrite Hl.
  destruct ev as [type text | method url response | message];
    cbn [attached dispatch event_name String.eqb Ascii.eqb Bool.eqb call_listener].
  - assert (H' : observed
                   (add_effect
                      (appendFile (consoleLogPath node dir)
                         (console_line node (clock W (clock_reads s)) (type, text)))
                      (tick (record_fired (console type text) s)))).
    { split; [exact Hl|]. unfold logged in *.
      cbn [effects fired add_effect tick record_fired].
      rewrite appended_app, console_messages_app.
      cbn [appended console_messages flat_map app].
      rewrite String.eqb_refl. cbn [app].
      apply Forall2_app; [exact H|]. constructor; [|constructor].
      now exists (clock_reads s). }
    unfold bind, console_listener, Date_now, modify, ret; cbn.
    destruct (type =? "error")%string; cbn; exact H'.
  - assert (H' : logged node W dir (record_fired (requestfinished method url response) s))
      by now apply logged_silent.
    unfold bind, ret, requestfinished_listener, Date_now, modify. cbn.
    destruct response; cbn; (split; [exact Hl|]); try exact H';
      apply (logged_add_effect node W dir (appendFile _ _));
      solve [ intros E; now apply two_files | exact H' ].
  - unfold bind, ret. cbn. split; [exact Hl|]. now apply logged_silent.
Qed.

Lemma observed_exec (p : Script) : keeps observed (exec node W dir p).
Proof.
  induction p as [ | e | ev k IHk | name k IHk | name body IHb k IHk
                   | body IHb handler IHh k IHk ]; cbn [exec].
  - apply keeps_ret.
  - apply keeps_throw.
  - apply keeps_bind; [apply observed_emit | intros _; exact IHk].
  - apply keeps_bind; [apply observed_helpers_screenshot | intros _; exact IHk].
  - apply keeps_bind; [apply observed_helpers_step; exact IHb | intros _; exact IHk].
  - apply keeps_bind; [|intros _; exact IHk].
    apply keeps_try_catch; [exact IHb | exact IHh].
Qed.

Lemma logged_try_block (scriptPath : string) :
  logged node W dir (snd (try_block node W dir scriptPath initial)).
Proof.
  assert (H0 : logged node W dir initial) by constructor.
  unfold try_block, page_on.
  cbv beta delta [bind settle modify ret throw].
  destruct (chromium_launch W); [|exact H0].
  destruct (browser_newContext W); [|exact H0].
  destruct (context_newPage W); [|exact H0].
  destruct (tracing_start W); [|exact H0].
  destruct (import W _) as [m|e]; [|exact H0].
  destruct (candidate m) as [[body|]|]; try exact H0.
  destruct (page_goto W); [|exact H0].
  apply observed_exec. split; [reflexivity | exact H0].
Qed.

End Logged.

(** X17. The console log holds what the page wrote to its console, and
    nothing else: taking [console.log] and [network.log] of the run
    directory to be two files, the lines appended to the console log are,
    in the order of the messages, one line [[<time>] [<type>] <text>] for
    each console message of the page, of whatever type; page errors,
    finished requests, screenshots and the finalization add nothing to
    it. *)
Theorem console_log_holds_the_messages (node : NodeRuntime) (W : World)
    (scriptPath : string) :
  let dir := path_resolve node "runs" (timestampId (new_Date W)) in
  consoleLogPath node dir <> networkLogPath node dir ->
  logged node W dir (snd (runTest node W scriptPath)).
Proof.
  cbv zeta. intros Hd.
  assert (H0 : forall d, logged node W d initial) by (intros d; constructor).
  unfold runTest.
  destruct (existsSync W scriptPath); cbn [negb]; [|apply H0].
  destruct (mkdirSync W _); [|apply H0].
  set (d := path_resolve node "runs" (timestampId (new_Date W))) in *.
  assert (H : logged node W d (snd (run_body node W d scriptPath initial))).
  { destruct (run_body_outcome node W d scriptPath) as [s1 [Hs1 ->]]. cbn [snd].
    apply (finally_block_frame node W d (logged node W d)).
    - intros e s0 He. apply logged_add_effect. destruct e; try contradiction; exact I.
    - subst s1. pose proof (logged_try_block node W d Hd scriptPath) as Ht.
      unfold try_catch, modify.
      destruct (try_block node W d scriptPath initial) as [[[]|e] s0]; exact Ht. }
  destruct (run_body node W d scriptPath initial) as [[[]|e] s]; exact H.
Qed.

Lemma console_log_holds_the_messages_witness :
  logged Sample.runtime (world chatty_script all_captured Fulfilled)
    "/work/runs/2025-01-09-08-07-06"
    (snd (runTest Sample.runtime (world chatty_script all_captured Fulfilled)
            "login.spec.ts"))
  /\ List.length (appended "/work/runs/2025-01-09-08-07-06/console.log"
                    (effects (snd (runTest Sample.runtime
                                     (world chatty_script all_captured Fulfilled)
                                     "login.spec.ts")))) = 2%nat.
Proof.
  split; [|reflexivity].
  apply (console_log_holds_the_messages Sample.runtime
           (world chatty_script all_captured Fulfilled) "login.spec.ts").
  discriminate.
Defined.

(** ** The status of a run in which no capture is rejected *)

(** X18. When no capture is rejected, a run that returns is [FAIL] exactly
    when the engine caught an exception (starting the browser, loading the
    script, or the script itself threw) or a step recorded [step:error],
    and [PASS] otherwise: a script that catches the failure of a step
    still fails the run. *)
Theorem status_without_rejected_capture (node : NodeRuntime) (W : World)
    (scriptPath : string) (r : RunResult.t) (s : Run) :
  always_captures W ->
  runTest node W scriptPath = (Returned r, s) ->
  (RunResult.status r = FAIL <->
   engine_caught node W (RunResult.artifactsDir r) scriptPath = true
   \/ existsb is_step_error (actions s) = true)
  /\ (RunResult.status r = PASS <->
      engine_caught node W (RunResult.artifactsDir r) scriptPath = false
      /\ existsb is_step_error (actions s) = false).
Proof.
  intros HW Hr.
  destruct (status_of_returned_run node W scriptPath r s Hr) as [H1 [H2 H3]].
  assert (Hf : RunResult.status r = FAIL <->
               engine_caught node W (RunResult.artifactsDir r) scriptPath = true
               \/ existsb is_step_error (actions s) = true).
  { split; [exact H2 | intros [H|H]; [now apply H1 | now apply H3]]. }
  split; [exact Hf|].
  destruct (RunResult.status r),
    (engine_caught node W (RunResult.artifactsDir r) scriptPath),
    (existsb is_step_error (actions s)); split; intros H; try reflexivity;
    try discriminate H; try (destruct H; discriminate);
    try (split; reflexivity);
    solve [ destruct Hf as [Hf _]; destruct (Hf eq_refl); discriminate
          | destruct Hf as [_ Hf]; discriminate Hf; auto ].
Qed.

Lemma status_without_rejected_capture_witness :
  exists r s,
    runTest Sample.runtime (world tolerant_script all_captured Fulfilled) "login.spec.ts"
    = (Returned r, s)
    /\ RunResult.status r = FAIL
    /\ engine_caught Sample.runtime (world tolerant_script all_captured Fulfilled)
         (RunResult.artifactsDir r) "login.spec.ts" = false.
Proof.
  destruct (runTest_completes Sample.runtime (world tolerant_script all_captured Fulfilled)
              "login.spec.ts" eq_refl eq_refl eq_refl) as [r [s H]].
  exists r, s. split; [exact H|].
  pose proof (proj1 (status_without_rejected_capture Sample.runtime
                       (world tolerant_script all_captured Fulfilled) "login.spec.ts"
                       r s (fun _ _ => eq_refl) H)) as Hf.
  vm_compute in H. injection H as <- <-.
  split; [|reflexivity]. apply Hf. right. reflexivity.
Defined.

(** ** Run ids *)

Lemma compare_app (a b s t : string) :
  String.length a = String.length b ->
  String.compare (a ++ s) (b ++ t) = then_by (String.compare a b) (String.compare s t).
Proof.
  revert b. induction a as [|c a IH]; intros [|c' b] H; try discriminate H.
  - reflexivity.
  - cbn [String.append String.compare]. injection H as H.
    destruct (Ascii.compare c c'); [now apply IH | reflexivity | reflexivity].
Qed.

Lemma length_append (s t : string) :
  String.length (s ++ t) = (String.length s + String.length t)%nat.
Proof. induction s as [|c s IH]; cbn; [reflexivity | now rewrite IH]. Qed.

Lemma then_by_eq (c next : comparison) :
  then_by c next = Eq -> c = Eq /\ next = Eq.
Proof. destruct c; cbn; intros H; try discriminate; auto. Qed.

(** The digits of a number come from those of the number before it. *)
Lemma to_little_uint_iter (n : nat) (acc : Decimal.uint) :
  Nat.to_little_uint n acc = Nat.iter n Decimal.Little.succ acc.
Proof.
  revert acc. induction n as [|n IH]; intros acc; [reflexivity|].
  cbn [Nat.to_little_uint]. rewrite IH. symmetry. apply Nat.iter_succ_r.
Qed.

Lemma String_of_nat_from (lo k : nat) :
  String_of_nat (k + lo)
  = DecimalString.NilEmpty.string_of_uint
      (Decimal.rev (Nat.iter k Decimal.Little.succ (Nat.to_little_uint lo Decimal.zero))).
Proof.
  unfold String_of_nat, Nat.to_uint.
  now rewrite !to_little_uint_iter, Nat.iter_add.
Qed.

(** A test that holds along the first [n] successors of [start] holds at
    each of them. *)
Lemma walk (test : Decimal.uint -> bool) (n : nat) (start : Decimal.uint) :
  snd (Nat.iter n (fun st => (Decimal.Little.succ (fst st), snd st && test (fst st)))
         (start, true)) = true ->
  forall k, (k < n)%nat -> test (Nat.iter k Decimal.Little.succ start) = true.
Proof.
  set (step := fun st : Decimal.uint * bool =>
                 (Decimal.Little.succ (fst st), snd st && test (fst st))).
  assert (Hf : forall n, fst (Nat.iter n step (start, true))
                         = Nat.iter n Decimal.Little.succ start).
  { intros m. induction m as [|m IH]; [reflexivity|].
    rewrite !Nat.iter_succ. cbn [step fst]. now rewrite IH. }
  induction n as [|n IH]; intros H k Hk; [lia|].
  rewrite Nat.iter_succ in H. cbn [step snd] in H.
  apply andb_prop in H. destruct H as [Hn Ht].
  destruct (Nat.eq_dec k n) as [->|Hne].
  - now rewrite <- Hf.
  - apply IH; [exact Hn | lia].
Qed.

Lemma order_from_next (f : nat -> string) (lo hi : nat) :
  (forall n, (lo <= n)%nat -> (S n < hi)%nat -> String.compare (f n) (f (S n)) = Lt) ->
  forall a b, (lo <= a < hi)%nat -> (lo <= b < hi)%nat ->
  String.compare (f a) (f b) = Nat.compare a b.
Proof.
  intros Hnext.
  assert (Hlt : forall b a, (lo <= a)%nat -> (a < b)%nat -> (b < hi)%nat ->
                            String.compare (f a) (f b) = Lt).
  { induction b as [|b IH]; intros a Ha Hab Hb; [lia|].
    destruct (Nat.eq_dec a b) as [->|Hne]; [apply Hnext; lia|].
    apply String_as_OT.cmp_lt.
    apply String_as_OT.lt_trans with (f b); apply String_as_OT.cmp_lt;
      [apply IH; lia | apply Hnext; lia]. }
  intros a b Ha Hb. destruct (Nat.compare_spec a b) as [->|H|H].
  - now apply String_as_OT.cmp_eq.
  - apply Hlt; lia.
  - rewrite String.compare_antisym, Hlt by lia. reflexivity.
Qed.

Lemma below_in_seq (P : nat -> bool) (lo len : nat) :
  forallb P (seq lo len) = true -> forall n, (lo <= n < lo + len)%nat -> P n = true.
Proof.
  intros H n Hn. rewrite forallb_forall in H. apply H, in_seq. exact Hn.
Qed.

Lemma pad_two_digits (n : nat) : (n < 100)%nat -> String.length (pad n) = 2%nat.
Proof.
  intros Hn. apply Nat.eqb_eq.
  apply (below_in_seq (fun n => (String.length (pad n) =? 2)%nat) 0 100);
    [now vm_compute | lia].
Qed.

Lemma pad_order (a b : nat) :
  (a < 100)%nat -> (b < 100)%nat -> String.compare (pad a) (pad b) = Nat.compare a b.
Proof.
  intros Ha Hb. apply (order_from_next pad 0 100); [|lia|lia].
  intros n _ Hn.
  pose proof (below_in_seq
    (fun n => match String.compare (pad n) (pad (S n)) with
              | Lt => true
              | _ => false
              end) 0 99 ltac:(now vm_compute) n ltac:(lia)) as H.
  cbv beta in H. destruct (String.compare _ _); congruence.
Qed.

Lemma year_four_digits (n : nat) :
  (1000 <= n < 100 * 100)%nat -> String.length (String_of_nat n) = 4%nat.
Proof.
  intros Hn. replace n with ((n - 1000) + 1000)%nat by lia.
  rewrite String_of_nat_from. apply Nat.eqb_eq.
  apply (walk (fun acc => (String.length (DecimalString.NilEmpty.string_of_uint
                                            (Decimal.rev acc)) =? 4)%nat)
           (90 * 100)); [now vm_compute | lia].
Qed.

Lemma year_order (a b : nat) :
  (1000 <= a < 100 * 100)%nat -> (1000 <= b < 100 * 100)%nat ->
  String.compare (String_of_nat a) (String_of_nat b) = Nat.compare a b.
Proof.
  apply (order_from_next String_of_nat).
  intros n Hlo Hhi.
  replace (S n) with (S (n - 1000) + 1000)%nat by lia.
  replace n with ((n - 1000) + 1000)%nat at 1 by lia.
  rewrite !String_of_nat_from, Nat.iter_succ.
  pose proof (walk
    (fun acc => match String.compare
                        (DecimalString.NilEmpty.string_of_uint (Decimal.rev acc))
                        (DecimalString.NilEmpty.string_of_uint
                           (Decimal.rev (Decimal.Little.succ acc))) with
                | Lt => true
                | _ => false
                end) (90 * 100 - 1) (Nat.to_little_uint 1000 Decimal.zero)
    ltac:(now vm_compute) (n - 1000)%nat ltac:(lia)) as H.
  cbv beta in H. destruct (String.compare _ _); congruence.
Qed.

Lemma compare_after_dash (s t : string) :
  String.compare ("-" ++ s) ("-" ++ t) = String.compare s t.
Proof. reflexivity. Qed.

(** X19. Run ids sort by time. For local times of the calendar (a year of
    four digits) the run id [YYYY-MM-DD-HH-mm-ss] has 19 characters, the
    order of two run ids as strings is the order of their times, and two
    runs have the same id only if they start within the same second. *)
Theorem run_ids_sort_by_time (d1 d2 : LocalTime) :
  calendar d1 -> calendar d2 ->
  String.length (timestampId d1) = 19%nat
  /\ String.compare (timestampId d1) (timestampId d2) = chronological d1 d2
  /\ (timestampId d1 = timestampId d2 -> d1 = d2).
Proof.
  intros (Hy1 & Hm1 & Hd1 & Hh1 & Hi1 & Hs1) (Hy2 & Hm2 & Hd2 & Hh2 & Hi2 & Hs2).
  assert (Hc : String.compare (timestampId d1) (timestampId d2) = chronological d1 d2).
  { unfold timestampId, chronological.
    rewrite compare_app by (rewrite !year_four_digits; trivial).
    rewrite year_order by trivial. f_equal.
    rewrite compare_after_dash, compare_app by (rewrite !pad_two_digits; lia).
    rewrite pad_order, !Nat.add_1_r, Nat.compare_succ by lia. f_equal.
    rewrite compare_after_dash, compare_app by (rewrite !pad_two_digits; lia).
    rewrite pad_order by lia. f_equal.
    rewrite compare_after_dash, compare_app by (rewrite !pad_two_digits; lia).
    rewrite pad_order by lia. f_equal.
    rewrite compare_after_dash, compare_app by (rewrite !pad_two_digits; lia).
    rewrite pad_order by lia. f_equal.
    rewrite compare_after_dash. apply pad_order; lia. }
  split; [|split; [exact Hc|]].
  - unfold timestampId.
    rewrite !length_append, year_four_digits, !pad_two_digits by lia. reflexivity.
  - intros E. rewrite E in Hc.
    assert (He : String.compare (timestampId d2) (timestampId d2) = Eq)
      by now apply String_as_OT.cmp_eq.
    rewrite He in Hc. symmetry in Hc. unfold chronological in Hc.
    repeat match goal with
           | H : then_by _ _ = Eq |- _ => apply then_by_eq in H; destruct H as [? H]
           end.
    repeat match goal with
           | H : Nat.compare _ _ = Eq |- _ => apply Nat.compare_eq in H
           end.
    destruct d1, d2; cbn in *. congruence.
Qed.

Lemma run_ids_sort_by_time_witness :
  timestampId morning = "2025-01-09-08-07-06"
  /\ String.compare (timestampId morning) (timestampId evening) = Lt.
Proof.
  split; [reflexivity|].
  destruct (run_ids_sort_by_time morning evening) as [_ [H _]].
  - unfold calendar, morning; cbn; lia.
  - unfold calendar, evening; cbn; lia.
  - rewrite H. reflexivity.
Defined.

(** ** The address of the script *)

Lemma replace_backslashes_clean (s : string) :
  mentions backslash (replace_backslashes s) = false.
Proof.
  induction s as [|c s IH]; [reflexivity|].
  cbn [replace_backslashes mentions]. rewrite IH, orb_false_r.
  fold backslash. destruct (Ascii.eqb c backslash) eqn:E; [reflexivity | exact E].
Qed.

Lemma replace_backslashes_same (s : string) :
  mentions backslash s = false -> replace_backslashes s = s.
Proof.
  induction s as [|c s IH]; [reflexivity|].
  cbn [replace_backslashes mentions]. intros H. apply orb_false_elim in H.
  destruct H as [Hc Hs]. fold backslash. now rewrite Hc, IH.
Qed.

Lemma starts_with_slash (s : string) :
  String.prefix "/" s = true -> exists s', s = String "/" s'.
Proof.
  destruct s as [|c s]; cbn [String.prefix]; [discriminate|].
  destruct (ascii_dec _ c) as [e|]; [|discriminate]. subst c. now exists s.
Qed.

(** X20. The address under which the script is imported: whatever the
    path, [toFileHref] gives a text that starts with [file:///] and holds
    no backslash; an absolute path that starts with a slash and holds no
    backslash is kept as it is, after [file://]. *)
Theorem module_href_shape (node : NodeRuntime) (p : string) :
  String.prefix "file:///" (toFileHref node p) = true
  /\ mentions backslash (toFileHref node p) = false
  /\ (path_isAbsolute node p = true -> String.prefix "/" p = true ->
      mentions backslash p = false -> toFileHref node p = ("file://" ++ p)%string).
Proof.
  unfold toFileHref. cbv zeta.
  set (abs := if path_isAbsolute node p then p else path_resolve1 node p).
  split; [|split].
  - destruct (String.prefix "/" (replace_backslashes abs)) eqn:E.
    + apply starts_with_slash in E. destruct E as [w ->]. cbn.
      repeat (destruct (ascii_dec _ _); [|congruence]).
      now destruct w.
    + cbn. repeat (destruct (ascii_dec _ _); [|congruence]).
      now destruct (replace_backslashes abs).
  - pose proof (replace_backslashes_clean abs) as H.
    destruct (String.prefix "/" (replace_backslashes abs)); cbn; exact H.
  - intros Ha Hs Hb. subst abs. rewrite Ha, (replace_backslashes_same p Hb), Hs.
    reflexivity.
Qed.

Lemma module_href_shape_witness :
  toFileHref Sample.runtime "/work/tests/login.spec.ts"
  = "file:///work/tests/login.spec.ts".
Proof.
  destruct (module_href_shape Sample.runtime "/work/tests/login.spec.ts")
    as [_ [_ H]].
  apply H; reflexivity.
Defined.

End EngineMore.
